(** * Notes-Generator: the document extractors of [app.py]

    A shallow embedding of [clean_text], [extract_pdf], [extract_pptx] and
    [extract_docx], and the properties of their results.

    Python values are modelled as follows.
    - [str] is a list of Unicode code points ([N]); [lit] turns an ASCII
      literal of the source into one.
    - [bytes] is a list of [Byte.byte].
    - the dictionaries appended to [slides_data] / [sections] and to
      [all_images] / [images] are the records [Block.t] and [Image.t].
    - an opened document is a record of what the library calls of the
      source return on it.  A call that the source wraps in [try] carries
      its outcome ([option]: [None] when it raises); the [except] branch of
      the source is the [None] branch of the model.  A call outside every
      [try] of its function carries an outcome of type [exc], and its
      exception leaves the function. *)

From Stdlib Require Import List Sorted NArith Arith Bool Lia.
From Stdlib Require Import Strings.String Strings.Ascii Strings.Byte.
From Stdlib Require Import Numbers.DecimalString Numbers.DecimalNat.
Import ListNotations.

Set Implicit Arguments.

(** [len] of a Python sequence. *)
Abbreviation len := List.length (only parsing).

(* ------------------------------------------------------------------ *)
(** ** Python strings *)

Definition char := N.
Definition str := list char.

(** An ASCII literal of the source. *)
Definition lit (s : string) : str := map N_of_ascii (list_ascii_of_string s).

(** [str(n)] inside an f-string. *)
Definition str_of_nat (n : nat) : str :=
  lit (NilEmpty.string_of_uint (Nat.to_uint n)).

Arguments lit : simpl never.
Arguments str_of_nat : simpl never.

Definition SPACE : char := 32%N.
Definition NEWLINE : char := 10%N.
Definition DOT : char := 46%N.
Definition COLON : char := 58%N.

Definition str_eqb (a b : str) : bool :=
  if list_eq_dec N.eq_dec a b then true else false.

(** [Py_UNICODE_ISSPACE]: the test behind [str.strip()], [str.isspace()]
    and the class [\s] of a [str] pattern. *)
Definition isspace (c : char) : bool :=
  ((9 <=? c) && (c <=? 13) || (28 <=? c) && (c <=? 32)
   || (c =? 133) || (c =? 160) || (c =? 5760)
   || (8192 <=? c) && (c <=? 8202)
   || (c =? 8232) || (c =? 8233) || (c =? 8239) || (c =? 8287)
   || (c =? 12288))%N.

(** The class [[^\x00-\x7F]]. *)
Definition non_ascii (c : char) : bool := (127 <? c)%N.

(** [re.sub(cls+, ' ', s)]: every maximal run of characters of the class
    becomes one space.  [in_run] tells that the previous character was in
    the class. *)
Fixpoint sub_runs (cls : char -> bool) (in_run : bool) (s : str) : str :=
  match s with
  | [] => []
  | c :: r =>
      if cls c
      then (if in_run then sub_runs cls true r else SPACE :: sub_runs cls true r)
      else c :: sub_runs cls false r
  end.

Definition re_sub_plus (cls : char -> bool) (s : str) : str :=
  sub_runs cls false s.

Fixpoint lstrip (s : str) : str :=
  match s with
  | [] => []
  | c :: r => if isspace c then lstrip r else s
  end.

Fixpoint rstrip (s : str) : str :=
  match s with
  | [] => []
  | c :: r =>
      match rstrip r with
      | [] => if isspace c then [] else [c]
      | r' => c :: r'
      end
  end.

(** [s.strip()] *)
Definition strip (s : str) : str := rstrip (lstrip s).

(** [sep.join(parts)] *)
Fixpoint join (sep : str) (parts : list str) : str :=
  match parts with
  | [] => []
  | [p] => p
  | p :: ps => p ++ sep ++ join sep ps
  end.

(** [s.split(sep)] for a one-character separator: never the empty list. *)
Fixpoint split (sep : char) (s : str) : list str :=
  match s with
  | [] => [[]]
  | c :: r =>
      if (c =? sep)%N then [] :: split sep r
      else match split sep r with
           | [] => [[c]]
           | p :: ps => (c :: p) :: ps
           end
  end.

Fixpoint startswith (s prefix : str) : bool :=
  match prefix, s with
  | [], _ => true
  | _ :: _, [] => false
  | p :: ps, c :: r => (c =? p)%N && startswith r ps
  end.

(** [s.endswith(c)] for a one-character suffix. *)
Definition endswith (s : str) (c : char) : bool :=
  match rev s with
  | [] => false
  | l :: _ => (l =? c)%N
  end.

(* ------------------------------------------------------------------ *)
(** ** [clean_text] *)

(** [if not text: return ""] is the first branch (every caller passes a
    [str]). *)
Definition clean_text (text : str) : str :=
  match text with
  | [] => []
  | _ =>
      let text1 := re_sub_plus isspace text in
      let text2 := re_sub_plus non_ascii text1 in
      strip text2
  end.

(* ------------------------------------------------------------------ *)
(** ** The two kinds of dictionaries of a result *)

Module Block.
(** The values of the key ['type']. *)
Inductive kind := page | slide | section | heading | document.

Record t := mk {
  number : nat;
  type : kind;
  title : str;
  content : str;
  has_content : bool
}.
End Block.

Module Image.
(** The values of the key ["type"]. *)
Inductive format := pdf | pptx | docx.

Record t := mk {
  id : str;
  slide : nat;
  src : str;
  type : format
}.
End Image.

Definition bytes := list byte.

(** [base64.b64encode(b).decode('utf-8')] *)
Definition b64_alphabet : str :=
  lit "ABCDEFGHIJKLMNOPQRSTUVWXYZabcdefghijklmnopqrstuvwxyz0123456789+/".

Definition b64_digit (n : N) : char := nth (N.to_nat n) b64_alphabet 0%N.

Definition PAD : char := 61%N.

Fixpoint b64encode (b : bytes) : str :=
  match b with
  | [] => []
  | [x] =>
      let x := Byte.to_N x in
      [b64_digit (x / 4); b64_digit (x mod 4 * 16); PAD; PAD]
  | [x; y] =>
      let x := Byte.to_N x in
      let y := Byte.to_N y in
      [b64_digit (x / 4); b64_digit (x mod 4 * 16 + y / 16);
       b64_digit (y mod 16 * 4); PAD]
  | x :: y :: z :: r =>
      let x := Byte.to_N x in
      let y := Byte.to_N y in
      let z := Byte.to_N z in
      b64_digit (x / 4) :: b64_digit (x mod 4 * 16 + y / 16)
      :: b64_digit (y mod 16 * 4 + z / 64) :: b64_digit (z mod 64)
      :: b64encode r
  end%N.

(** [f"data:image/{ext};base64,{b64}"] *)
Definition data_uri (ext b64 : str) : str :=
  lit "data:image/" ++ ext ++ lit ";base64," ++ b64.

(* ------------------------------------------------------------------ *)
(** ** [extract_pdf] *)

(** What the [try] block around one entry of [page.get_images(full=True)]
    computes: [Some (image_bytes, ext)], or [None] when any of its steps
    raises. *)
Definition PdfImage := option (bytes * str).

Module FitzPage.
Record t := mk {
  get_text : str;
  get_images : list PdfImage
}.
End FitzPage.

(** One page under pdfplumber: [None] when reading it raises, otherwise
    what [page.extract_text()] returns ([None] or a [str]). *)
Definition PlumberPage := option (option str).

Module PdfFile.
Record t := mk {
  (** [None]: [import fitz] raises [ImportError]. *)
  fitz : option (list FitzPage.t);
  (** [None]: [import pdfplumber] or [pdfplumber.open] raises. *)
  pdfplumber : option (list PlumberPage);
  (** [f.read().decode('utf-8', errors='ignore')] *)
  raw : str
}.
End PdfFile.

(** The dictionary of one page with text; [n] is the number of the page,
    from 1. *)
Definition page_block (n : nat) (clean : str) : Block.t :=
  Block.mk n Block.page (lit "Page " ++ str_of_nat n) clean
           (50 <? len clean).

(** [for img_index, img in enumerate(image_list)] *)
Fixpoint pdf_image_loop (page_num img_index : nat) (image_list : list PdfImage)
    (all_images : list Image.t) : list Image.t :=
  match image_list with
  | [] => all_images
  | img :: rest =>
      let all_images :=
        match img with
        | Some (image_bytes, ext) =>
            let b64 := b64encode image_bytes in
            all_images ++
              [Image.mk (lit "pdf_p" ++ str_of_nat page_num ++ lit "_img"
                           ++ str_of_nat img_index)
                        (page_num + 1) (data_uri ext b64) Image.pdf]
        | None => all_images (* except: continue *)
        end in
      pdf_image_loop page_num (S img_index) rest all_images
  end.

(** [for page_num in range(len(doc))] *)
Fixpoint pdf_page_loop (page_num : nat) (pages : list FitzPage.t)
    (slides_data : list Block.t) (all_images : list Image.t)
    : list Block.t * list Image.t :=
  match pages with
  | [] => (slides_data, all_images)
  | page :: rest =>
      let clean := clean_text (FitzPage.get_text page) in
      let slides_data :=
        match clean with
        | [] => slides_data
        | _ => slides_data ++ [page_block (page_num + 1) clean]
        end in
      let all_images :=
        pdf_image_loop page_num 0 (FitzPage.get_images page) all_images in
      pdf_page_loop (S page_num) rest slides_data all_images
  end.

(** [for i, page in enumerate(pdf.pages)], inside the inner [try]: the
    result tells whether the loop ran to its end; when a page raises, what
    was appended to [text_content] before stays there. *)
Fixpoint plumber_loop (i : nat) (pages : list PlumberPage)
    (text_content : list Block.t) : list Block.t * bool :=
  match pages with
  | [] => (text_content, true)
  | None :: _ => (text_content, false)
  | Some extracted :: rest =>
      let text := match extracted with Some t => t | None => [] end in
      let clean := clean_text text in
      let text_content :=
        match clean with
        | [] => text_content
        | _ => text_content ++ [page_block (i + 1) clean]
        end in
      plumber_loop (S i) rest text_content
  end.

(** The dictionary of the last resort. *)
Definition raw_block (text : str) : Block.t :=
  Block.mk 1 Block.page (lit "Document") (clean_text text) true.

Definition extract_pdf (f : PdfFile.t) : list Block.t * list Image.t :=
  match PdfFile.fitz f with
  | Some doc => pdf_page_loop 0 doc [] []
  | None => (* except ImportError *)
      let '(text_content, done) :=
        match PdfFile.pdfplumber f with
        | Some pages => plumber_loop 0 pages []
        | None => ([], false)
        end in
      let text_content :=
        if done then text_content
        else text_content ++ [raw_block (PdfFile.raw f)] in
      (text_content, [])
  end.

(* ------------------------------------------------------------------ *)
(** ** [extract_pptx] *)

(** The outcome of a call that the code does not wrap in a [try] of its
    own: the value it returns, or [str(e)] of the exception it raises. *)
Inductive exc (A : Type) : Type :=
| Returns (a : A)
| Raises (message : str).

Arguments Returns {A} a.
Arguments Raises {A} message.

Module Shape.
Record t := mk {
  (** [None]: [hasattr(shape, "text")] is false. *)
  text : option str;
  (** [shape.shape_type], read outside the [try]: the value it returns (13
      for a picture, [None] for a shape without type), or the exception
      python-pptx raises on a shape of a type it does not recognise. *)
  shape_type : exc (option nat);
  (** What the [try] block computes on a picture: the blob and, when the
      image has the attribute, its [ext]; [None] when a step raises. *)
  image : option (bytes * option str)
}.
End Shape.

Definition Slide := list Shape.t.
Definition Presentation := list Slide.

(** [shape_type == 13] *)
Definition is_picture (shape_type : option nat) : bool :=
  match shape_type with
  | Some n => n =? 13
  | None => false
  end.

(** The truth value of a [str] and of a list. *)
Definition nonempty (s : str) : bool :=
  match s with [] => false | _ => true end.

Definition nonempty_list {A} (l : list A) : bool :=
  match l with [] => false | _ => true end.

(** The state of the loop over the shapes of one slide. *)
Record ShapeState := mkShapeState {
  slide_title : str;
  has_title : bool;
  slide_text : list str;
  images : list Image.t
}.

(** The body of the loop over the shapes; an exception of
    [shape.shape_type] leaves the loop and [extract_pptx]. *)
Definition shape_step (idx : nat) (shape : Shape.t) (st : ShapeState)
    : exc ShapeState :=
  let st :=
    match Shape.text shape with
    | Some text =>
        if nonempty (strip text) then
          if negb (has_title st) && (len (strip text) <? 100) && (idx =? 1)
          then mkShapeState (strip text) true (slide_text st) (images st)
          else mkShapeState (slide_title st) (has_title st)
                            (slide_text st ++ [strip text]) (images st)
        else st
    | None => st
    end in
  match Shape.shape_type shape with
  | Raises message => Raises message
  | Returns shape_type =>
      if is_picture shape_type then
        match Shape.image shape with
        | Some (image_bytes, image_ext) =>
            let ext :=
              match image_ext with Some e => e | None => lit "png" end in
            let b64 := b64encode image_bytes in
            Returns
              (mkShapeState (slide_title st) (has_title st) (slide_text st)
                 (images st ++
                    [Image.mk (lit "pptx_s" ++ str_of_nat idx ++ lit "_img"
                                 ++ str_of_nat (len (images st)))
                              idx (data_uri ext b64) Image.pptx]))
        | None => Returns st (* except: continue *)
        end
      else Returns st
  end.

(** [for shape in slide.shapes] *)
Fixpoint shape_loop (idx : nat) (shapes : Slide) (st : ShapeState)
    : exc ShapeState :=
  match shapes with
  | [] => Returns st
  | shape :: rest =>
      match shape_step idx shape st with
      | Returns st => shape_loop idx rest st
      | Raises message => Raises message
      end
  end.

(** The title and the content of a slide, from what the loop over its
    shapes left. *)
Definition infer_title (st : ShapeState) : str * str :=
  let content := clean_text (join [NEWLINE] (slide_text st)) in
  match split DOT content with
  | first :: others =>
      if (len first <? 80) && negb (has_title st)
      then (strip first, strip (join [DOT] others))
      else (slide_title st, content)
  | [] => (slide_title st, content)
  end.

(** [for idx, slide in enumerate(prs.slides, 1)] *)
Fixpoint slide_loop (idx : nat) (slides : Presentation)
    (slides_data : list Block.t) (images0 : list Image.t)
    : exc (list Block.t * list Image.t) :=
  match slides with
  | [] => Returns (slides_data, images0)
  | slide :: rest =>
      match
        shape_loop idx slide
          (mkShapeState (lit "Slide " ++ str_of_nat idx) false [] images0)
      with
      | Raises message => Raises message
      | Returns st =>
          let '(slide_title, content) := infer_title st in
          slide_loop (S idx) rest
            (slides_data ++
               [Block.mk idx Block.slide slide_title content
                         (30 <? len content)])
            (images st)
      end
  end.

Definition extract_pptx (prs : Presentation)
    : exc (list Block.t * list Image.t) :=
  slide_loop 1 prs [] [].

(* ------------------------------------------------------------------ *)
(** ** [extract_docx] *)

(** The case properties of the code points above 127, which
    [str.isupper] reads from the Unicode database of the interpreter. *)
Record CaseTable := mkCaseTable {
  uni_islower : char -> bool;
  uni_isupper : char -> bool;
  uni_istitle : char -> bool
}.

Module Paragraph.
Record t := mk {
  text : str;
  (** [para.style.name] *)
  style_name : str
}.
End Paragraph.

Module Rel.
Record t := mk {
  (** [None]: reading [rel.target_ref] raises. *)
  target_ref : option str;
  (** [rel.target_part.blob]; [None] when it raises. *)
  blob : option bytes
}.
End Rel.

Module Document.
Record t := mk {
  paragraphs : list Paragraph.t;
  (** [doc.part.rels.values()]; [None] when it raises. *)
  rels : option (list Rel.t)
}.
End Document.

(** [sub in s] *)
Fixpoint contains (s sub : str) : bool :=
  startswith s sub
  || match s with
     | [] => false
     | _ :: r => contains r sub
     end.

Section Docx.

Variable ucd : CaseTable.

Definition ch_islower (c : char) : bool :=
  if (c <? 128)%N then (97 <=? c)%N && (c <=? 122)%N else uni_islower ucd c.

Definition ch_isupper (c : char) : bool :=
  if (c <? 128)%N then (65 <=? c)%N && (c <=? 90)%N else uni_isupper ucd c.

Definition ch_istitle (c : char) : bool :=
  if (c <? 128)%N then false else uni_istitle ucd c.

(** [s.isupper()]: no lower-case or title-case character and at least
    one upper-case character; a string of one character is tested on
    that character alone. *)
Definition isupper (s : str) : bool :=
  match s with
  | [c] => ch_isupper c
  | _ =>
      forallb (fun c => negb (ch_islower c || ch_istitle c)) s
      && existsb ch_isupper s
  end.

(** The test of the source on a stripped paragraph text. *)
Definition is_heading (text style : str) : bool :=
  (len text <? 100)
  && (isupper text || endswith text COLON || startswith style (lit "Heading")).

Definition section_block (section_count : nat) (current_text : list str)
    : Block.t :=
  Block.mk section_count Block.section
           (lit "Section " ++ str_of_nat section_count)
           (clean_text (join [NEWLINE] current_text)) true.

Definition heading_block (section_count : nat) (text : str) : Block.t :=
  Block.mk section_count Block.heading text [] false.

(** The state of the loop over the paragraphs. *)
Record ParaState := mkParaState {
  sections : list Block.t;
  current_text : list str;
  section_count : nat
}.

Definition para_step (st : ParaState) (para : Paragraph.t) : ParaState :=
  let text := strip (Paragraph.text para) in
  if nonempty text then
    if is_heading text (Paragraph.style_name para) then
      let st :=
        if nonempty_list (current_text st) then
          mkParaState
            (sections st ++ [section_block (section_count st) (current_text st)])
            [] (section_count st + 1)
        else st in
      mkParaState (sections st ++ [heading_block (section_count st) text])
                  (current_text st) (section_count st)
    else
      mkParaState (sections st) (current_text st ++ [text]) (section_count st)
  else st (* continue *).

(** [for para in doc.paragraphs], followed by "Add remaining text". *)
Definition para_loop (paragraphs : list Paragraph.t) : list Block.t :=
  let st := fold_left para_step paragraphs (mkParaState [] [] 1) in
  if nonempty_list (current_text st)
  then sections st ++ [section_block (section_count st) (current_text st)]
  else sections st.

(** The extension sniffed from the first bytes of an image. *)
Definition sniff_ext (image : bytes) : str :=
  if list_eq_dec Byte.byte_eq_dec (firstn 4 image) [x89; x50; x4e; x47]
  then lit "png"
  else if list_eq_dec Byte.byte_eq_dec (firstn 2 image) [xff; xd8]
  then lit "jpeg"
  else lit "png".

(** [for rel in rels.values()], inside the outer [try]: a relationship
    whose [target_ref] raises ends the loop, and what was appended to
    [images] before stays there. *)
Fixpoint rel_loop (rels : list Rel.t) (images : list Image.t)
    : list Image.t :=
  match rels with
  | [] => images
  | rel :: rest =>
      match Rel.target_ref rel with
      | None => images (* outer except: pass *)
      | Some ref =>
          let images :=
            if contains ref (lit "image") then
              match Rel.blob rel with
              | Some image =>
                  let ext := sniff_ext image in
                  let b64 := b64encode image in
                  images ++
                    [Image.mk (lit "docx_img" ++ str_of_nat (len images))
                              1 (data_uri ext b64) Image.docx]
              | None => images (* except: continue *)
              end
            else images in
          rel_loop rest images
      end
  end.

Definition document_block (paragraphs : list Paragraph.t) : Block.t :=
  let full_text :=
    join [NEWLINE]
      (map Paragraph.text
         (filter (fun p => nonempty (strip (Paragraph.text p))) paragraphs)) in
  Block.mk 1 Block.document (lit "Document") (clean_text full_text) true.

Definition extract_docx (doc : Document.t) : list Block.t * list Image.t :=
  let sections := para_loop (Document.paragraphs doc) in
  let images :=
    match Document.rels doc with
    | Some rels => rel_loop rels []
    | None => [] (* except: pass *)
    end in
  let sections :=
    match sections with
    | [] => [document_block (Document.paragraphs doc)]
    | _ => sections
    end in
  (sections, images).

End Docx.

(** A table for texts of ASCII characters only, where the table is never
    read. *)
Definition no_case : CaseTable :=
  mkCaseTable (fun _ => false) (fun _ => false) (fun _ => false).


(* ------------------------------------------------------------------ *)
(** ** [allowed_file] *)

(** [s.rsplit(sep, 1)] for a one-character separator: the text before the
    last separator and the text after it, or the whole text alone when it
    holds no separator. *)
Fixpoint rsplit1 (sep : char) (s : str) : list str :=
  match s with
  | [] => [[]]
  | c :: r =>
      match rsplit1 sep r with
      | [] => [[c]]
      | [tail] => if (c =? sep)%N then [[]; tail] else [c :: tail]
      | head :: rest => (c :: head) :: rest
      end
  end.

(** [c.lower()] for a character of the range 0x00-0x7F. *)
Definition ascii_lower (c : char) : char :=
  if ((65 <=? c) && (c <=? 90))%N then (c + 32)%N else c.

Definition ALLOWED_EXTENSIONS : list str := [lit "pdf"; lit "pptx"; lit "docx"].

(** [x in ALLOWED_EXTENSIONS] *)
Definition in_set (x : str) (set : list str) : bool := existsb (str_eqb x) set.

Section Lower.

(** What [str.lower] puts for the character above 0x7F at a place of a
    text; it reads the Unicode database, gives one character or several,
    and looks at the neighbours of a capital sigma. *)
Variable uni_lower : str -> nat -> str.

Fixpoint lower_from (s : str) (i : nat) (rest : str) : str :=
  match rest with
  | [] => []
  | c :: r =>
      (if (c <? 128)%N then [ascii_lower c] else uni_lower s i)
      ++ lower_from s (S i) r
  end.

(** [s.lower()] *)
Definition lower (s : str) : str := lower_from s 0 s.

(** The [and] of the source evaluates the index only when the text holds
    a dot, in which case [rsplit] gives two parts. *)
Definition allowed_file (filename : str) : bool :=
  contains filename (lit ".")
  && match nth_error (rsplit1 DOT filename) 1 with
     | Some ext => in_set (lower ext) ALLOWED_EXTENSIONS
     | None => false
     end.

End Lower.

(* ------------------------------------------------------------------ *)
(** ** [process_file] *)

Module Request.
(** One request, with the outcomes of the calls the route makes on it. *)
Record t := mk {
  (** [file.filename] of [request.files['file']]; [None] when the key is
      not there. *)
  file : option str;
  (** [file.save(filepath)] *)
  save : exc unit;
  (** What the libraries find in the saved file when the extractor of
      each format opens it. *)
  pdf : exc PdfFile.t;
  pptx : exc Presentation;
  docx : exc Document.t;
  (** Whether [os.remove(filepath)] succeeds. *)
  remove : bool
}.
End Request.

Module Response.
(** The object given to [jsonify]. *)
Inductive json :=
| error (message : str)
| success (slides : list Block.t) (text : str) (images : list Image.t)
          (file_type : str) (slide_count : nat).

Record t := mk {
  body : json;
  status : nat;
  (** Whether the upload is in the upload folder when the route returns. *)
  file_left : bool
}.
End Response.

(** [f"## {s['title']}\n{s['content']}"] *)
Definition flat_entry (s : Block.t) : str :=
  lit "## " ++ Block.title s ++ [NEWLINE] ++ Block.content s.

(** "Flatten text for backward compatibility" *)
Definition flatten (slides_data : list Block.t) : str :=
  join [NEWLINE; NEWLINE] (map flat_entry (filter Block.has_content slides_data)).

Section Route.

Variable ucd : CaseTable.
Variable uni_lower : str -> nat -> str.
(** [werkzeug.utils.secure_filename] *)
Variable secure_filename : str -> str.

(** The end of the [try] block, from "Flatten text" on. *)
Definition respond (req : Request.t) (result : list Block.t * list Image.t)
    (file_type : str) : Response.t :=
  let '(slides_data, images) := result in
  let full_text := flatten slides_data in
  Response.mk
    (Response.success slides_data full_text images file_type (len slides_data))
    200 (negb (Request.remove req)).

(** [except Exception as e] *)
Definition failed (message : str) (file_left : bool) : Response.t :=
  Response.mk (Response.error message) 500 file_left.

Definition process_file (req : Request.t) : Response.t :=
  match Request.file req with
  | None => Response.mk (Response.error (lit "No file provided")) 400 false
  | Some name =>
      if str_eqb name [] then
        Response.mk (Response.error (lit "No file selected")) 400 false
      else if negb (allowed_file uni_lower name) then
        Response.mk
          (Response.error (lit "Invalid file type. Use PDF, PPTX, or DOCX"))
          400 false
      else
        let filename := secure_filename name in
        match Request.save req with
        | Raises message => failed message false
        | Returns _ =>
            match nth_error (rsplit1 DOT filename) 1 with
            | None => failed (lit "list index out of range") true
            | Some part =>
                let ext := lower uni_lower part in
                if str_eqb ext (lit "pdf") then
                  match Request.pdf req with
                  | Returns f => respond req (extract_pdf f) (lit "pdf")
                  | Raises message => failed message true
                  end
                else if str_eqb ext (lit "pptx") then
                  match Request.pptx req with
                  | Returns prs =>
                      match extract_pptx prs with
                      | Returns result => respond req result (lit "slides")
                      | Raises message => failed message true
                      end
                  | Raises message => failed message true
                  end
                else if str_eqb ext (lit "docx") then
                  match Request.docx req with
                  | Returns doc =>
                      respond req (extract_docx ucd doc) (lit "document")
                  | Raises message => failed message true
                  end
                else
                  Response.mk (Response.error (lit "Unsupported extension"))
                              400 true
            end
        end
  end.

End Route.

(** A [str.lower] for texts of ASCII characters only, where the table is
    never read. *)
Definition no_lower : str -> nat -> str := fun s i => [nth i s 0%N].

(* ------------------------------------------------------------------ *)
(** ** Properties and sample inputs *)

(** The characters [clean_text] is to keep: in the range 0x00-0x7F and not
    whitespace. *)
Definition ascii_nonspace (c : char) : bool :=
  (c <=? 127)%N && negb (isspace c).

(** ["a\xe9 b"]: an accented letter before a space. *)
Definition accented : str := lit "a" ++ [233%N] ++ lit " b".

(** The numbers of a list of blocks are 1, 2, ..., K in this order. *)
Definition numbers_contiguous (bs : list Block.t) : Prop :=
  map Block.number bs = seq 1 (len bs).

(** *** The blocks and the images of a presentation *)

(** The stripped texts of the shapes of a slide that have one, in the
    order of the shapes. *)
Definition shape_texts (slide : Slide) : list str :=
  flat_map
    (fun shape =>
       match Shape.text shape with
       | Some text => if nonempty (strip text) then [strip text] else []
       | None => []
       end)
    slide.

(** What the loop over the shapes does with one text. *)
Definition text_step (idx : nat) (st : ShapeState) (text : str) : ShapeState :=
  if negb (has_title st) && (len text <? 100) && (idx =? 1)
  then mkShapeState text true (slide_text st) (images st)
  else mkShapeState (slide_title st) (has_title st) (slide_text st ++ [text])
                    (images st).

(** The dictionary [extract_pptx] appends for the slide of index [idx]: it
    is a function of the texts of the slide alone. *)
Definition slide_block (idx : nat) (slide : Slide) : Block.t :=
  let st :=
    fold_left (text_step idx) (shape_texts slide)
      (mkShapeState (lit "Slide " ++ str_of_nat idx) false [] []) in
  Block.mk idx Block.slide (fst (infer_title st)) (snd (infer_title st))
           (30 <? len (snd (infer_title st))).

Fixpoint slide_blocks (idx : nat) (slides : Presentation) : list Block.t :=
  match slides with
  | [] => []
  | slide :: rest => slide_block idx slide :: slide_blocks (S idx) rest
  end.

(** A state of the loop over the shapes with another list of images. *)
Definition with_images (st : ShapeState) (ims : list Image.t) : ShapeState :=
  mkShapeState (slide_title st) (has_title st) (slide_text st) ims.

(** A picture whose image the [try] block reads. *)
Definition is_readable_picture (shape : Shape.t) : bool :=
  match Shape.shape_type shape, Shape.image shape with
  | Returns shape_type, Some _ => is_picture shape_type
  | _, _ => false
  end.

(** What a shape adds to [images] when [n] images are there. *)
Definition shape_image (idx : nat) (shape : Shape.t) (n : nat)
    : list Image.t :=
  match Shape.shape_type shape, Shape.image shape with
  | Returns shape_type, Some (image_bytes, image_ext) =>
      if is_picture shape_type then
        [Image.mk (lit "pptx_s" ++ str_of_nat idx ++ lit "_img"
                     ++ str_of_nat n)
                  idx
                  (data_uri (match image_ext with
                             | Some e => e
                             | None => lit "png"
                             end)
                            (b64encode image_bytes))
                  Image.pptx]
      else []
  | _, _ => []
  end.

Fixpoint slide_images (idx : nat) (shapes : Slide) (n : nat)
    : list Image.t :=
  match shapes with
  | [] => []
  | shape :: rest =>
      shape_image idx shape n
      ++ slide_images idx rest (n + len (shape_image idx shape n))
  end.

Fixpoint deck_images (idx : nat) (slides : Presentation) (n : nat)
    : list Image.t :=
  match slides with
  | [] => []
  | slide :: rest =>
      slide_images idx slide n
      ++ deck_images (S idx) rest (n + len (slide_images idx slide n))
  end.

(** The message of the first shape whose [shape_type] raises. *)
Fixpoint first_raise (shapes : list Shape.t) : option str :=
  match shapes with
  | [] => None
  | shape :: rest =>
      match Shape.shape_type shape with
      | Raises message => Some message
      | Returns _ => first_raise rest
      end
  end.

(** Whether [shape.shape_type] returns. *)
Definition type_returns (shape : Shape.t) : bool :=
  match Shape.shape_type shape with
  | Returns _ => true
  | Raises _ => false
  end.


(** A shape with one text element and whatever else. *)
Definition text_shape (t : str) (ty : exc (option nat))
    (im : option (bytes * option str)) : Shape.t :=
  Shape.mk (Some t) ty im.

(** A picture, with the outcome of reading its image. *)
Definition picture (t : option str) (im : option (bytes * option str))
    : Shape.t :=
  Shape.mk t (Returns (Some 13)) im.


(** What one entry of an image list adds to [all_images]. *)
Definition pdf_image (page_num img_index : nat) (img : PdfImage)
    : list Image.t :=
  match img with
  | Some (image_bytes, ext) =>
      [Image.mk (lit "pdf_p" ++ str_of_nat page_num ++ lit "_img"
                   ++ str_of_nat img_index)
                (page_num + 1) (data_uri ext (b64encode image_bytes))
                Image.pdf]
  | None => []
  end.

Fixpoint page_images (page_num img_index : nat) (image_list : list PdfImage)
    : list Image.t :=
  match image_list with
  | [] => []
  | img :: rest =>
      pdf_image page_num img_index img
      ++ page_images page_num (S img_index) rest
  end.

Fixpoint pdf_images (page_num : nat) (pages : list FitzPage.t)
    : list Image.t :=
  match pages with
  | [] => []
  | page :: rest =>
      page_images page_num 0 (FitzPage.get_images page)
      ++ pdf_images (S page_num) rest
  end.

(** The dictionaries of the pages whose texts are [texts], the first one
    being the page of index [page_num]. *)
Fixpoint pdf_blocks (page_num : nat) (texts : list str) : list Block.t :=
  match texts with
  | [] => []
  | text :: rest =>
      match clean_text text with
      | [] => pdf_blocks (S page_num) rest
      | clean => page_block (page_num + 1) clean :: pdf_blocks (S page_num) rest
      end
  end.

(** The text pdfplumber gives for a page: [page.extract_text() or ""]. *)
Definition plumber_text (extracted : option str) : str :=
  match extracted with Some t => t | None => [] end.

Definition is_section (b : Block.t) : bool :=
  match Block.type b with
  | Block.section => true
  | _ => false
  end.

Definition count_sections (bs : list Block.t) : nat :=
  len (filter is_section bs).

(** Every block carries [k] plus the number of section blocks before it:
    the numbering of [extract_docx], whose counter moves on section blocks
    only. *)
Fixpoint numbered_from (k : nat) (bs : list Block.t) : Prop :=
  match bs with
  | [] => True
  | b :: rest =>
      Block.number b = k
      /\ numbered_from (if is_section b then S k else k) rest
  end.

(** The flag of a block of [extract_docx], by type. *)
Definition docx_flag_rule (b : Block.t) : Prop :=
  match Block.type b with
  | Block.section | Block.document => Block.has_content b = true
  | Block.heading => Block.has_content b = false /\ Block.content b = []
  | _ => False
  end.

(** The invariant of the loop over the paragraphs. *)
Definition para_inv (P : Block.t -> Prop) (st : ParaState) : Prop :=
  numbered_from 1 (sections st)
  /\ section_count st = 1 + count_sections (sections st)
  /\ Forall P (sections st).

(** *** Sample documents *)

(** A PDF whose first page has no text and whose second page has. *)
Definition pdf_blank_then_text : PdfFile.t :=
  PdfFile.mk (Some [FitzPage.mk [] []; FitzPage.mk (lit "hello") []]) None [].


Definition normal (s : string) : Paragraph.t :=
  Paragraph.mk (lit s) (lit "Normal").

(** ["INTRO"] followed by two paragraphs of body. *)
Definition docx_intro : Document.t :=
  Document.mk [normal "INTRO"; normal "first body"; normal " second  body "]
              (Some [Rel.mk (Some (lit "media/image1.png"))
                            (Some [x89; x50; x4e; x47])]).

(** One short paragraph of body. *)
Definition docx_short : Document.t := Document.mk [normal "hi"] None.

(** Two slides with the same single text element. *)
Definition deck_hello_twice : Presentation :=
  [[text_shape (lit "Hello") (Returns None) None];
   [text_shape (lit "Hello") (Returns None) None]].

(** A slide with a text element and a picture. *)
Definition deck_picture : Presentation :=
  [[text_shape (lit "Hello") (Returns None) None;
    picture None (Some ([x01; x02; x03; x04], None))]].

(** A slide whose only shape has a text and a type that python-pptx does
    not recognise. *)
Definition deck_unrecognised : Presentation :=
  [[text_shape (lit "Hello")
               (Raises (lit "Shape instance of unrecognized shape type"))
               None]].


(** What [re.sub(r'\s+', ' ', _)] leaves: every whitespace character is a
    space, and no two of them are adjacent; [after_space] tells that a
    whitespace character comes just before. *)
Fixpoint collapsed (after_space : bool) (s : str) : Prop :=
  match s with
  | [] => True
  | c :: r =>
      if isspace c
      then c = SPACE /\ after_space = false /\ collapsed true r
      else collapsed false r
  end.


(** *** The identifiers of the images *)

(** [f"pdf_p{page_num}_img{img_index}"] *)
Definition pdf_id (page_num img_index : nat) : str :=
  lit "pdf_p" ++ str_of_nat page_num ++ lit "_img" ++ str_of_nat img_index.

(** [f"pptx_s{idx}_img{n}"] *)
Definition pptx_id (idx n : nat) : str :=
  lit "pptx_s" ++ str_of_nat idx ++ lit "_img" ++ str_of_nat n.

(** [f"docx_img{n}"] *)
Definition docx_id (n : nat) : str := lit "docx_img" ++ str_of_nat n.

Definition is_digit (c : char) : Prop := (48 <= c <= 57)%N.

(** The images of a list carry the counters [start], [start + 1], ... in
    their identifiers. *)
Fixpoint counted_from (mk_id : Image.t -> nat -> str) (start : nat)
    (l : list Image.t) : Prop :=
  match l with
  | [] => True
  | im :: rest =>
      Image.id im = mk_id im start /\ counted_from mk_id (S start) rest
  end.


(** *** Pages and their text *)

(** A text with a character [clean_text] keeps. *)
Definition has_visible (text : str) : bool := existsb ascii_nonspace text.

Definition is_readable (img : PdfImage) : bool :=
  match img with Some _ => true | None => false end.


(** *** The title of a slide *)

(** The first text shorter than 100 characters, and the other texts. *)
Fixpoint pick_title (texts : list str) : option (str * list str) :=
  match texts with
  | [] => None
  | text :: rest =>
      if len text <? 100 then Some (text, rest)
      else match pick_title rest with
           | Some (title, others) => Some (title, text :: others)
           | None => None
           end
  end.

(** The block of a slide on which no shape gave the title. *)
Definition inferred_block (idx : nat) (texts : list str) : Block.t :=
  let clean := clean_text (join [NEWLINE] texts) in
  let first := hd [] (split DOT clean) in
  let others := strip (join [DOT] (tl (split DOT clean))) in
  if len first <? 80
  then Block.mk idx Block.slide (strip first) others (30 <? len others)
  else Block.mk idx Block.slide (lit "Slide " ++ str_of_nat idx) clean
                (30 <? len clean).

(** The block of a slide on which a shape gave the title. *)
Definition titled_block (idx : nat) (title : str) (texts : list str)
    : Block.t :=
  let content := clean_text (join [NEWLINE] texts) in
  Block.mk idx Block.slide title content (30 <? len content).


(** *** Paragraphs *)

(** A paragraph the loop of [extract_docx] passes over. *)
Definition is_blank (para : Paragraph.t) : bool :=
  negb (nonempty (strip (Paragraph.text para))).

(** A paragraph the loop of [extract_docx] takes for a heading. *)
Definition is_heading_para (ucd : CaseTable) (para : Paragraph.t) : bool :=
  nonempty (strip (Paragraph.text para))
  && is_heading ucd (strip (Paragraph.text para)) (Paragraph.style_name para).

Definition is_heading_block (b : Block.t) : bool :=
  match Block.type b with
  | Block.heading => true
  | _ => false
  end.

Definition heading_titles (bs : list Block.t) : list str :=
  map Block.title (filter is_heading_block bs).

(** The characters of a text that [clean_text] keeps, in their order. *)
Definition visible (s : str) : str := filter ascii_nonspace s.

(** The visible characters held by a state of the paragraph loop. *)
Definition held (st : ParaState) : str :=
  visible (List.concat (map Block.content (sections st)))
  ++ visible (List.concat (current_text st)).


(** *** Requests *)

Definition is_success (body : Response.json) : bool :=
  match body with
  | Response.success _ _ _ _ _ => true
  | Response.error _ => false
  end.

(** A stand-in for [secure_filename] that drops the leading dots of a
    name, as werkzeug does: [".pdf"] becomes ["pdf"]. *)
Fixpoint strip_dots (name : str) : str :=
  match name with
  | [] => []
  | c :: rest => if (c =? DOT)%N then strip_dots rest else name
  end.

(** An upload of slides that the library cannot open. *)
Definition broken_pptx_request : Request.t :=
  Request.mk (Some (lit "talk.pptx")) (Returns tt) (Raises (lit "bad pdf"))
             (Raises (lit "Package not found")) (Raises (lit "bad docx")) true.

(** An upload of slides. *)
Definition pptx_request : Request.t :=
  Request.mk (Some (lit "talk.PPTX")) (Returns tt) (Raises (lit "bad pdf"))
             (Returns deck_hello_twice) (Raises (lit "bad docx")) true.

(** An upload named [".pdf"]. *)
Definition dot_pdf_request : Request.t :=
  Request.mk (Some (lit ".pdf")) (Returns tt)
             (Returns pdf_blank_then_text) (Raises (lit "bad pptx"))
             (Raises (lit "bad docx")) true.


(** *** Contents *)

(** A text of characters of the range 0x00-0x7F that [strip] leaves as it
    is. *)
Definition trimmed_ascii (s : str) : Prop :=
  Forall (fun c => (c <= 127)%N) s /\ strip s = s.

(* ------------------------------------------------------------------ *)
(** ** Properties of [clean_text] *)

Lemma filter_sub_runs (keep cls : char -> bool) :
  (forall c, cls c = true -> keep c = false) ->
  keep SPACE = false ->
  forall in_run s, filter keep (sub_runs cls in_run s) = filter keep s.
Proof.
  intros Hcls Hsp in_run s. revert in_run.
  induction s as [|c r IH]; intros in_run; simpl; [reflexivity|].
  destruct (cls c) eqn:E.
  - rewrite (Hcls c E). destruct in_run; simpl; rewrite ?Hsp; apply IH.
  - simpl. rewrite IH. reflexivity.
Qed.

Lemma filter_lstrip (keep : char -> bool) :
  (forall c, isspace c = true -> keep c = false) ->
  forall s, filter keep (lstrip s) = filter keep s.
Proof.
  intros Hsp s. induction s as [|c r IH]; simpl; [reflexivity|].
  destruct (isspace c) eqn:E; [|reflexivity].
  rewrite (Hsp c E). exact IH.
Qed.

Lemma filter_rstrip (keep : char -> bool) :
  (forall c, isspace c = true -> keep c = false) ->
  forall s, filter keep (rstrip s) = filter keep s.
Proof.
  intros Hsp s. induction s as [|c r IH]; simpl; [reflexivity|].
  destruct (rstrip r) as [|d r'] eqn:E.
  - rewrite <- IH. destruct (isspace c) eqn:Ec.
    + rewrite (Hsp c Ec). reflexivity.
    + simpl. destruct (keep c); reflexivity.
  - simpl in *. rewrite IH. reflexivity.
Qed.

Lemma Forall_sub_runs (P : char -> Prop) (cls : char -> bool) :
  P SPACE ->
  forall in_run s,
    Forall (fun c => cls c = false -> P c) s ->
    Forall P (sub_runs cls in_run s).
Proof.
  intros Hsp in_run s H. revert in_run.
  induction H as [|c r Hc _ IH]; intros in_run; simpl; [constructor|].
  destruct (cls c); [destruct in_run|]; auto.
Qed.

Lemma Forall_lstrip (P : char -> Prop) s : Forall P s -> Forall P (lstrip s).
Proof.
  induction 1 as [|c r Hc Hr IH]; simpl; [constructor|].
  destruct (isspace c); auto.
Qed.

Lemma Forall_rstrip (P : char -> Prop) s : Forall P s -> Forall P (rstrip s).
Proof.
  induction 1 as [|c r Hc Hr IH]; simpl; [constructor|].
  destruct (rstrip r); [destruct (isspace c)|]; auto.
Qed.

Lemma Forall_strip (P : char -> Prop) s : Forall P s -> Forall P (strip s).
Proof. intros H. apply Forall_rstrip, Forall_lstrip, H. Qed.

Lemma filter_strip (keep : char -> bool) :
  (forall c, isspace c = true -> keep c = false) ->
  forall s, filter keep (strip s) = filter keep s.
Proof.
  intros Hsp s. unfold strip.
  rewrite (filter_rstrip keep Hsp). apply (filter_lstrip keep Hsp).
Qed.

Lemma ascii_nonspace_not_space c : isspace c = true -> ascii_nonspace c = false.
Proof. intros H. unfold ascii_nonspace. rewrite H. apply andb_false_r. Qed.

Lemma ascii_nonspace_not_high c : non_ascii c = true -> ascii_nonspace c = false.
Proof.
  unfold non_ascii, ascii_nonspace. intros H.
  apply N.ltb_lt in H.
  destruct (N.leb_spec c 127); [lia | reflexivity].
Qed.

(** C10. [clean_text] keeps every ASCII character that is not whitespace:
    for every input, the characters of the range 0x00-0x7F that are not
    whitespace occur in the result exactly as in the input, in the same
    order and number (control characters such as 0x01 included), and every
    character of the result is in the range 0x00-0x7F. *)
Theorem clean_text_keeps_ascii_nonspace :
  forall s : str,
    filter ascii_nonspace (clean_text s) = filter ascii_nonspace s
    /\ Forall (fun c => (c <= 127)%N) (clean_text s)
    /\ ascii_nonspace 1%N = true
    /\ clean_text (lit "a" ++ [1%N] ++ lit "b") = lit "a" ++ [1%N] ++ lit "b".
Proof.
  intros s. split; [|split; [|split; reflexivity]].
  - destruct s as [|c r]; [reflexivity|].
    unfold clean_text, re_sub_plus.
    rewrite (filter_strip ascii_nonspace ascii_nonspace_not_space).
    rewrite (filter_sub_runs ascii_nonspace non_ascii ascii_nonspace_not_high
               eq_refl).
    apply (filter_sub_runs ascii_nonspace isspace ascii_nonspace_not_space
             eq_refl).
  - destruct s as [|c r]; [constructor|].
    unfold clean_text, re_sub_plus.
    apply Forall_strip, Forall_sub_runs.
    + unfold SPACE. lia.
    + apply Forall_forall. intros x _ Hx. unfold non_ascii in Hx.
      apply N.ltb_ge in Hx. exact Hx.
Qed.

(** C2, on the code: [clean_text] is not idempotent.  On ["a\xe9 b"] the
    second substitution puts a space next to the one the first
    substitution left, so the result is ["a  b"], and cleaning that
    again gives ["a b"]. *)
Theorem clean_text_twice_differs :
  clean_text accented = lit "a  b"
  /\ clean_text (clean_text accented) = lit "a b"
  /\ clean_text (clean_text accented) <> clean_text accented.
Proof.
  split; [reflexivity|]. split; [reflexivity|].
  intros H. vm_compute in H. discriminate H.
Qed.

(** *** Texts of ASCII characters: cleaning twice is cleaning once *)

Lemma sub_runs_ascii s : forall in_run,
  Forall (fun c => (c <= 127)%N) s -> sub_runs non_ascii in_run s = s.
Proof.
  induction s as [|c r IH]; intros in_run H; simpl; [reflexivity|].
  inversion H as [|? ? Hc Hr]; subst.
  unfold non_ascii at 1. destruct (N.ltb_spec 127 c); [lia|].
  rewrite (IH false Hr). reflexivity.
Qed.

Lemma sub_runs_collapsed s : forall in_run,
  collapsed in_run (sub_runs isspace in_run s).
Proof.
  induction s as [|c r IH]; intros in_run; simpl; [exact I|].
  destruct (isspace c) eqn:E.
  - destruct in_run; [apply IH|]. simpl. repeat split. apply IH.
  - simpl. rewrite E. apply IH.
Qed.

Lemma collapsed_fixed s : forall in_run,
  collapsed in_run s -> sub_runs isspace in_run s = s.
Proof.
  induction s as [|c r IH]; intros in_run H; simpl in *; [reflexivity|].
  destruct (isspace c).
  - destruct H as (-> & -> & H). rewrite (IH true H). reflexivity.
  - rewrite (IH false H). reflexivity.
Qed.

Lemma collapsed_lstrip s : forall in_run,
  collapsed in_run s -> collapsed false (lstrip s).
Proof.
  induction s as [|c r IH]; intros in_run H; simpl in *; [exact I|].
  destruct (isspace c) eqn:E.
  - destruct H as (_ & _ & H). apply (IH true H).
  - simpl. rewrite E. exact H.
Qed.

Lemma collapsed_rstrip s : forall in_run,
  collapsed in_run s -> collapsed in_run (rstrip s).
Proof.
  induction s as [|c r IH]; intros in_run H; simpl in *; [exact I|].
  destruct (isspace c) eqn:E.
  - destruct H as (Hc & Hb & H). specialize (IH true H).
    destruct (rstrip r) as [|d r']; [exact I|].
    change (collapsed in_run (c :: d :: r')). cbn [collapsed].
    rewrite E. auto.
  - specialize (IH false H).
    destruct (rstrip r) as [|d r'].
    + simpl. rewrite E. exact I.
    + change (collapsed in_run (c :: d :: r')). cbn [collapsed].
      rewrite E. exact IH.
Qed.

Lemma rstrip_idem s : rstrip (rstrip s) = rstrip s.
Proof.
  induction s as [|c r IH]; simpl; [reflexivity|].
  destruct (rstrip r) as [|d r'] eqn:E.
  - destruct (isspace c) eqn:Ec; simpl; [reflexivity|]. rewrite Ec. reflexivity.
  - change (match rstrip (d :: r') with
            | [] => if isspace c then [] else [c]
            | x :: y => c :: x :: y
            end = c :: d :: r').
    rewrite IH. reflexivity.
Qed.

Lemma lstrip_rstrip_lstrip s : lstrip (rstrip (lstrip s)) = rstrip (lstrip s).
Proof.
  assert (H : forall v, lstrip v = v -> lstrip (rstrip v) = rstrip v).
  { intros [|c r]; [reflexivity|]. cbn [lstrip].
    destruct (isspace c) eqn:E.
    - intros Hl. exfalso.
      assert (Hlen : len (lstrip r) <= len r).
      { clear. induction r as [|d r IH]; simpl; [lia|].
        destruct (isspace d); simpl; lia. }
      rewrite Hl in Hlen. simpl in Hlen. lia.
    - intros _. cbn [rstrip].
      destruct (rstrip r); [rewrite E|]; cbn [lstrip]; rewrite E; reflexivity. }
  apply H. clear H.
  induction s as [|c r IH]; simpl; [reflexivity|].
  destruct (isspace c) eqn:E; [exact IH|]. simpl. rewrite E. reflexivity.
Qed.

Lemma strip_idem s : strip (strip s) = strip s.
Proof.
  unfold strip. rewrite lstrip_rstrip_lstrip. apply rstrip_idem.
Qed.

Lemma clean_text_ascii s :
  Forall (fun c => (c <= 127)%N) s ->
  clean_text s = strip (sub_runs isspace false s).
Proof.
  intros Hs. destruct s as [|c r]; [reflexivity|].
  unfold clean_text, re_sub_plus. rewrite sub_runs_ascii; [reflexivity|].
  apply Forall_sub_runs; [unfold SPACE; lia|].
  eapply Forall_impl; [|exact Hs]. auto.
Qed.

(** On a text without characters above 0x7F, [clean_text] is idempotent. *)
Lemma clean_text_idempotent_ascii s :
  Forall (fun c => (c <= 127)%N) s ->
  clean_text (clean_text s) = clean_text s.
Proof.
  intros Hs. rewrite (clean_text_ascii Hs).
  set (u := sub_runs isspace false s).
  assert (Hu : Forall (fun c => (c <= 127)%N) u).
  { apply Forall_sub_runs; [unfold SPACE; lia|].
    eapply Forall_impl; [|exact Hs]. auto. }
  assert (Hc : collapsed false (strip u)).
  { unfold strip. apply collapsed_rstrip.
    apply (collapsed_lstrip u false). apply sub_runs_collapsed. }
  rewrite (clean_text_ascii (Forall_strip Hu)).
  rewrite (collapsed_fixed (strip u) false Hc).
  apply strip_idem.
Qed.

(** For every text, a third cleaning changes nothing. *)
Lemma clean_text_thrice s :
  clean_text (clean_text (clean_text s)) = clean_text (clean_text s).
Proof.
  apply clean_text_idempotent_ascii.
  destruct s as [|c r]; [constructor|].
  unfold clean_text at 1, re_sub_plus.
  apply Forall_strip, Forall_sub_runs.
  - unfold SPACE. lia.
  - apply Forall_forall. intros x _ Hx. unfold non_ascii in Hx.
    apply N.ltb_ge in Hx. exact Hx.
Qed.


(* ------------------------------------------------------------------ *)
(** ** [extract_pptx]: the loops as functions of the slides *)

Lemma with_images_same st : with_images st (images st) = st.
Proof. destruct st. reflexivity. Qed.

Lemma text_step_with_images idx st text ims :
  text_step idx (with_images st ims) text
  = with_images (text_step idx st text) ims.
Proof.
  unfold text_step, with_images. cbn [has_title slide_text slide_title images].
  destruct (negb (has_title st) && (len text <? 100) && (idx =? 1));
    reflexivity.
Qed.

Lemma text_fold_with_images idx texts : forall st ims,
  fold_left (text_step idx) texts (with_images st ims)
  = with_images (fold_left (text_step idx) texts st) ims.
Proof.
  induction texts as [|text rest IH]; intros st ims; cbn [fold_left];
    [reflexivity|].
  rewrite text_step_with_images. apply IH.
Qed.

Lemma infer_title_with_images st ims :
  infer_title (with_images st ims) = infer_title st.
Proof. reflexivity. Qed.

Lemma shape_texts_app s1 s2 :
  shape_texts (s1 ++ s2) = shape_texts s1 ++ shape_texts s2.
Proof. apply flat_map_app. Qed.

(** One turn of the loop over the shapes: the exception of
    [shape.shape_type], or the texts and the image of the shape added to
    the state. *)
Lemma shape_step_spec idx shape st :
  shape_step idx shape st
  = match Shape.shape_type shape with
    | Raises message => Raises message
    | Returns _ =>
        Returns
          (with_images
             (fold_left (text_step idx) (shape_texts [shape]) st)
             (images st ++ shape_image idx shape (len (images st))))
    end.
Proof.
  destruct st as [title has texts ims].
  unfold shape_step, shape_texts, shape_image.
  cbn [flat_map]. rewrite app_nil_r.
  destruct (Shape.text shape) as [text|];
    [destruct (nonempty (strip text))|];
    cbn [fold_left]; unfold text_step, with_images;
    cbn [slide_title has_title slide_text images];
    try destruct (negb has && (len (strip text) <? 100) && (idx =? 1));
    destruct (Shape.shape_type shape) as [ty|message]; try reflexivity;
    destruct (is_picture ty);
    destruct (Shape.image shape) as [[image_bytes image_ext]|];
    cbn [slide_title has_title slide_text images];
    rewrite ?app_nil_r; reflexivity.
Qed.

Lemma shape_loop_spec idx shapes : forall st,
  shape_loop idx shapes st
  = match first_raise shapes with
    | Some message => Raises message
    | None =>
        Returns
          (with_images
             (fold_left (text_step idx) (shape_texts shapes) st)
             (images st ++ slide_images idx shapes (len (images st))))
    end.
Proof.
  induction shapes as [|shape rest IH]; intros st;
    cbn [shape_loop first_raise slide_images].
  - rewrite app_nil_r. cbn [shape_texts flat_map fold_left].
    rewrite with_images_same. reflexivity.
  - rewrite shape_step_spec.
    destruct (Shape.shape_type shape) as [ty|message]; [|reflexivity].
    rewrite IH. destruct (first_raise rest); [reflexivity|].
    cbn [images with_images].
    replace (shape_texts (shape :: rest))
      with (shape_texts [shape] ++ shape_texts rest)
      by (symmetry; apply (shape_texts_app [shape] rest)).
    rewrite fold_left_app, text_fold_with_images.
    rewrite length_app, app_assoc. reflexivity.
Qed.

Lemma first_raise_app a b :
  first_raise (a ++ b)
  = match first_raise a with
    | Some message => Some message
    | None => first_raise b
    end.
Proof.
  induction a as [|shape rest IH]; cbn [app first_raise]; [reflexivity|].
  destruct (Shape.shape_type shape); [exact IH|reflexivity].
Qed.

Lemma first_raise_none shapes :
  first_raise shapes = None <-> forallb type_returns shapes = true.
Proof.
  induction shapes as [|shape rest IH]; cbn [first_raise forallb];
    [tauto|].
  unfold type_returns at 1.
  destruct (Shape.shape_type shape); cbn [andb]; [exact IH|].
  split; discriminate.
Qed.

Lemma slide_loop_spec slides : forall idx slides_data images0,
  slide_loop idx slides slides_data images0
  = match first_raise (List.concat slides) with
    | Some message => Raises message
    | None =>
        Returns (slides_data ++ slide_blocks idx slides,
                 images0 ++ deck_images idx slides (len images0))
    end.
Proof.
  induction slides as [|slide rest IH]; intros idx slides_data images0;
    cbn [slide_loop List.concat slide_blocks deck_images].
  - rewrite !app_nil_r. reflexivity.
  - rewrite shape_loop_spec, first_raise_app.
    destruct (first_raise slide); [reflexivity|].
    cbv beta iota. cbn [images].
    change (mkShapeState (lit "Slide " ++ str_of_nat idx) false [] images0)
      with (with_images
              (mkShapeState (lit "Slide " ++ str_of_nat idx) false [] [])
              images0).
    rewrite text_fold_with_images. unfold slide_block.
    set (st := fold_left (text_step idx) (shape_texts slide) _).
    change (infer_title (with_images (with_images st images0)
                           (images0 ++ slide_images idx slide (len images0))))
      with (infer_title st).
    destruct (infer_title st) as [title content].
    cbn [with_images images fst snd]. rewrite IH.
    destruct (first_raise (List.concat rest)); [reflexivity|].
    rewrite length_app, <- !app_assoc. reflexivity.
Qed.

(** [extract_pptx] raises what the first [shape.shape_type] that raises
    does; when none raises it returns the blocks of the slides and the
    images of the pictures. *)
Lemma extract_pptx_spec prs :
  extract_pptx prs
  = match first_raise (List.concat prs) with
    | Some message => Raises message
    | None => Returns (slide_blocks 1 prs, deck_images 1 prs 0)
    end.
Proof. unfold extract_pptx. rewrite slide_loop_spec. reflexivity. Qed.

Lemma extract_pptx_returned prs bs ims :
  extract_pptx prs = Returns (bs, ims) ->
  forallb type_returns (List.concat prs) = true
  /\ bs = slide_blocks 1 prs
  /\ ims = deck_images 1 prs 0.
Proof.
  rewrite extract_pptx_spec.
  destruct (first_raise (List.concat prs)) eqn:E; [discriminate|].
  intros H. injection H as <- <-.
  split; [apply first_raise_none, E|]. split; reflexivity.
Qed.

Lemma extract_pptx_returns prs :
  forallb type_returns (List.concat prs) = true ->
  extract_pptx prs = Returns (slide_blocks 1 prs, deck_images 1 prs 0).
Proof.
  intros H. apply first_raise_none in H.
  rewrite extract_pptx_spec, H. reflexivity.
Qed.

(** *** The blocks *)

Lemma slide_blocks_numbers slides : forall idx,
  map Block.number (slide_blocks idx slides) = seq idx (len slides).
Proof.
  induction slides as [|slide rest IH]; intros idx; simpl; [reflexivity|].
  rewrite IH. reflexivity.
Qed.

Lemma slide_blocks_length slides : forall idx,
  len (slide_blocks idx slides) = len slides.
Proof.
  induction slides as [|slide rest IH]; intros idx; simpl; [reflexivity|].
  rewrite IH. reflexivity.
Qed.

Lemma slide_blocks_nth before slide rest : forall idx,
  nth_error (slide_blocks idx (before ++ slide :: rest)) (len before)
  = Some (slide_block (idx + len before) slide).
Proof.
  induction before as [|s before IH]; intros idx; simpl.
  - rewrite Nat.add_0_r. reflexivity.
  - rewrite IH. f_equal. f_equal. lia.
Qed.

Lemma slide_blocks_Forall (P : Block.t -> Prop) :
  (forall idx slide, P (slide_block idx slide)) ->
  forall slides idx, Forall P (slide_blocks idx slides).
Proof.
  intros H slides. induction slides as [|slide rest IH]; intros idx; simpl;
    constructor; auto.
Qed.

(** *** The images *)

Lemma shape_image_slide idx shape n :
  Forall (fun im => Image.slide im = idx) (shape_image idx shape n).
Proof.
  unfold shape_image.
  destruct (Shape.shape_type shape) as [ty|]; [|constructor].
  destruct (Shape.image shape) as [[image_bytes image_ext]|]; [|constructor].
  destruct (is_picture ty); repeat constructor.
Qed.

Lemma slide_images_slide idx shapes : forall n,
  Forall (fun im => Image.slide im = idx) (slide_images idx shapes n).
Proof.
  induction shapes as [|shape rest IH]; intros n; cbn [slide_images];
    [constructor|].
  apply Forall_app. split; [apply shape_image_slide|apply IH].
Qed.

Lemma deck_images_bounds slides : forall idx n,
  Forall (fun im => idx <= Image.slide im < idx + len slides)
         (deck_images idx slides n).
Proof.
  induction slides as [|slide rest IH]; intros idx n; cbn [deck_images];
    [constructor|].
  apply Forall_app. split.
  - eapply Forall_impl; [|apply slide_images_slide]. cbn beta.
    intros im ->. cbn [len]. lia.
  - eapply Forall_impl; [|apply IH]. cbn beta. intros im H. cbn [len]. lia.
Qed.






(* ------------------------------------------------------------------ *)
(** ** [extract_pdf]: the loops as functions of the pages *)

Lemma pdf_image_loop_spec page_num image_list : forall img_index all_images,
  pdf_image_loop page_num img_index image_list all_images
  = all_images ++ page_images page_num img_index image_list.
Proof.
  induction image_list as [|img rest IH]; intros img_index all_images;
    cbn [pdf_image_loop page_images].
  - symmetry. apply app_nil_r.
  - rewrite IH. destruct img as [[image_bytes ext]|]; cbn [pdf_image].
    + rewrite <- app_assoc. reflexivity.
    + reflexivity.
Qed.

Lemma pdf_page_loop_spec pages : forall page_num slides_data all_images,
  pdf_page_loop page_num pages slides_data all_images
  = (slides_data ++ pdf_blocks page_num (map FitzPage.get_text pages),
     all_images ++ pdf_images page_num pages).
Proof.
  induction pages as [|page rest IH]; intros page_num slides_data all_images;
    cbn [pdf_page_loop pdf_blocks pdf_images map].
  - rewrite !app_nil_r. reflexivity.
  - rewrite IH, pdf_image_loop_spec.
    destruct (clean_text (FitzPage.get_text page));
      rewrite <- !app_assoc; reflexivity.
Qed.

Lemma plumber_loop_done texts : forall i text_content,
  plumber_loop i (map Some texts) text_content
  = (text_content ++ pdf_blocks i (map plumber_text texts), true).
Proof.
  induction texts as [|extracted rest IH]; intros i text_content;
    cbn [plumber_loop pdf_blocks map].
  - rewrite app_nil_r. reflexivity.
  - rewrite IH. fold (plumber_text extracted).
    destruct (clean_text (plumber_text extracted));
      rewrite <- ?app_assoc; reflexivity.
Qed.

Lemma plumber_loop_Forall (P : Block.t -> Prop) :
  (forall n clean, clean <> [] -> P (page_block n clean)) ->
  forall pages i text_content,
    Forall P text_content ->
    Forall P (fst (plumber_loop i pages text_content)).
Proof.
  intros HP pages.
  induction pages as [|[extracted|] rest IH]; intros i text_content H;
    cbn [plumber_loop fst]; try exact H.
  apply IH. fold (plumber_text extracted).
  destruct (clean_text (plumber_text extracted)) eqn:E; [exact H|].
  apply Forall_app. split; [exact H|].
  constructor; [|constructor]. apply HP. discriminate.
Qed.

Lemma pdf_blocks_Forall (P : Block.t -> Prop) :
  (forall n clean, clean <> [] -> P (page_block n clean)) ->
  forall texts page_num, Forall P (pdf_blocks page_num texts).
Proof.
  intros HP texts.
  induction texts as [|text rest IH]; intros page_num; cbn [pdf_blocks].
  - constructor.
  - destruct (clean_text text) eqn:E; [apply IH|].
    constructor; [|apply IH]. apply HP. discriminate.
Qed.

(** *** The numbers of the pages *)

Lemma pdf_blocks_bounds texts : forall page_num,
  Forall (fun n => page_num < n <= page_num + len texts)
         (map Block.number (pdf_blocks page_num texts)).
Proof.
  induction texts as [|text rest IH]; intros page_num;
    cbn [pdf_blocks]; [constructor|].
  assert (H : Forall (fun n => page_num < n <= page_num + len (text :: rest))
                     (map Block.number (pdf_blocks (S page_num) rest))).
  { eapply Forall_impl; [|apply IH]. simpl. intros n Hn. lia. }
  destruct (clean_text text); [exact H|].
  cbn [map page_block Block.number]. constructor; [simpl; lia|exact H].
Qed.

Lemma pdf_blocks_sorted texts : forall page_num,
  StronglySorted lt (map Block.number (pdf_blocks page_num texts)).
Proof.
  induction texts as [|text rest IH]; intros page_num;
    cbn [pdf_blocks]; [constructor|].
  destruct (clean_text text); [apply IH|].
  cbn [map page_block Block.number]. constructor; [apply IH|].
  eapply Forall_impl; [|apply pdf_blocks_bounds]. simpl. intros n Hn. lia.
Qed.

Lemma pdf_blocks_numbers texts : forall page_num k,
  In k (map Block.number (pdf_blocks page_num texts))
  <-> exists text,
        page_num < k
        /\ nth_error texts (k - page_num - 1) = Some text
        /\ clean_text text <> [].
Proof.
  induction texts as [|text rest IH]; intros page_num k; cbn [pdf_blocks].
  - simpl. split; [tauto|]. intros (t & _ & H & _).
    destruct (k - page_num - 1); discriminate.
  - assert (Hrest : In k (map Block.number (pdf_blocks (S page_num) rest))
               <-> exists t, page_num + 1 < k
                    /\ nth_error (text :: rest) (k - page_num - 1) = Some t
                    /\ clean_text t <> []).
    { rewrite IH. split; intros (t & Hk & Hn & Hc); exists t.
      - split; [lia|]. split; [|exact Hc].
        replace (k - page_num - 1) with (S (k - S page_num - 1)) by lia.
        exact Hn.
      - split; [lia|]. split; [|exact Hc].
        replace (k - page_num - 1) with (S (k - S page_num - 1)) in Hn by lia.
        exact Hn. }
    destruct (clean_text text) as [|c r] eqn:E.
    + rewrite Hrest. split; intros (t & Hk & Hn & Hc); exists t.
      * split; [lia|]. tauto.
      * split; [|tauto].
        destruct (Nat.eq_dec k (page_num + 1)) as [->|]; [|lia].
        replace (page_num + 1 - page_num - 1) with 0 in Hn by lia.
        simpl in Hn. injection Hn as ->. contradiction.
    + cbn [map page_block Block.number In]. rewrite Hrest. split.
      * intros [<-|(t & Hk & Hn & Hc)].
        -- exists text. split; [lia|].
           replace (page_num + 1 - page_num - 1) with 0 by lia.
           split; [reflexivity|]. rewrite E. discriminate.
        -- exists t. split; [lia|]. tauto.
      * intros (t & Hk & Hn & Hc).
        destruct (Nat.eq_dec k (page_num + 1)) as [->|]; [left; reflexivity|].
        right. exists t. split; [lia|]. tauto.
Qed.

(** *** The images of the pages *)

Lemma page_images_slide page_num image_list : forall img_index,
  Forall (fun im => Image.slide im = page_num + 1)
         (page_images page_num img_index image_list).
Proof.
  induction image_list as [|img rest IH]; intros img_index;
    cbn [page_images]; [constructor|].
  apply Forall_app. split; [|apply IH].
  destruct img as [[image_bytes ext]|]; cbn [pdf_image]; repeat constructor.
Qed.




(* ------------------------------------------------------------------ *)
(** ** [extract_docx]: the invariant of the paragraph loop *)

Lemma fold_left_inv {A B} (f : A -> B -> A) (P : A -> Prop) :
  (forall a b, P a -> P (f a b)) ->
  forall l a, P a -> P (fold_left f l a).
Proof.
  intros Hf l. induction l as [|b l IH]; intros a Ha; simpl; auto.
Qed.

Lemma count_sections_app bs b :
  count_sections (bs ++ [b])
  = count_sections bs + (if is_section b then 1 else 0).
Proof.
  unfold count_sections. rewrite filter_app, length_app. simpl.
  destruct (is_section b); reflexivity.
Qed.

Lemma numbered_from_app bs b : forall k,
  numbered_from k (bs ++ [b])
  <-> numbered_from k bs /\ Block.number b = k + count_sections bs.
Proof.
  induction bs as [|a bs IH]; intros k; cbn [app numbered_from].
  - unfold count_sections. simpl. rewrite Nat.add_0_r. tauto.
  - rewrite IH. unfold count_sections. cbn [filter].
    destruct (is_section a); cbn [len]; rewrite ?Nat.add_succ_r; simpl; tauto.
Qed.

Section DocxLoop.

Variable ucd : CaseTable.
Variable P : Block.t -> Prop.
Hypothesis P_section : forall n texts, P (section_block n texts).
Hypothesis P_heading :
  forall n text, nonempty text = true -> P (heading_block n text).

Lemma para_inv_flush st :
  para_inv P st ->
  para_inv P
    (mkParaState
       (sections st ++ [section_block (section_count st) (current_text st)])
       [] (section_count st + 1)).
Proof.
  intros (Hn & Hc & HP). unfold para_inv. cbn [sections section_count].
  split; [|split].
  - apply numbered_from_app. split; [exact Hn|]. rewrite Hc. reflexivity.
  - rewrite count_sections_app. simpl. lia.
  - apply Forall_app. split; [exact HP|]. repeat constructor. apply P_section.
Qed.

Lemma para_inv_heading st text :
  nonempty text = true ->
  para_inv P st ->
  para_inv P
    (mkParaState (sections st ++ [heading_block (section_count st) text])
                 (current_text st) (section_count st)).
Proof.
  intros Ht (Hn & Hc & HP). unfold para_inv. cbn [sections section_count].
  split; [|split].
  - apply numbered_from_app. split; [exact Hn|]. rewrite Hc. reflexivity.
  - rewrite count_sections_app. simpl. lia.
  - apply Forall_app. split; [exact HP|]. repeat constructor.
    apply P_heading, Ht.
Qed.

Lemma para_step_inv st para :
  para_inv P st -> para_inv P (para_step ucd st para).
Proof.
  intros H. unfold para_step.
  destruct (nonempty (strip (Paragraph.text para))) eqn:Et; [|exact H].
  destruct (is_heading ucd _ _); [|exact H].
  apply para_inv_heading; [exact Et|].
  destruct (nonempty_list (current_text st)); [|exact H].
  apply para_inv_flush, H.
Qed.

Lemma para_loop_inv paragraphs :
  numbered_from 1 (para_loop ucd paragraphs)
  /\ Forall P (para_loop ucd paragraphs).
Proof.
  unfold para_loop.
  set (st := fold_left (para_step ucd) paragraphs (mkParaState [] [] 1)).
  assert (H : para_inv P st).
  { apply fold_left_inv; [intros a b; apply para_step_inv|].
    repeat split. constructor. }
  destruct (nonempty_list (current_text st)).
  - apply para_inv_flush in H. destruct H as (Hn & _ & HP). split; assumption.
  - destruct H as (Hn & _ & HP). split; assumption.
Qed.

Hypothesis P_document : forall paragraphs, P (document_block paragraphs).

Lemma extract_docx_inv doc :
  fst (extract_docx ucd doc) <> []
  /\ numbered_from 1 (fst (extract_docx ucd doc))
  /\ Forall P (fst (extract_docx ucd doc)).
Proof.
  unfold extract_docx. cbn [fst].
  destruct (para_loop_inv (Document.paragraphs doc)) as (Hn & HP).
  destruct (para_loop ucd (Document.paragraphs doc)) as [|b bs].
  - split; [discriminate|]. split; [simpl; auto|].
    repeat constructor. apply P_document.
  - split; [discriminate|]. split; assumption.
Qed.

End DocxLoop.

Lemma numbered_from_sections bs : forall k,
  numbered_from k bs ->
  map Block.number (filter is_section bs) = seq k (count_sections bs).
Proof.
  unfold count_sections.
  induction bs as [|b bs IH]; intros k; cbn [numbered_from filter];
    [reflexivity|].
  intros (Hb & Hrest). destruct (is_section b); cbn [map len seq].
  - rewrite Hb, (IH _ Hrest). reflexivity.
  - apply IH, Hrest.
Qed.

(** *** The images of a document *)



Lemma docx_flag_rule_blocks ucd doc :
  Forall docx_flag_rule (fst (extract_docx ucd doc)).
Proof.
  apply extract_docx_inv; intros; unfold docx_flag_rule; simpl; auto.
Qed.

(* ------------------------------------------------------------------ *)
(** ** The numbers of the blocks *)

(** C1, as stated, fails: [extract_pdf] numbers a block by its page, so a
    page without text leaves a gap, and [extract_docx] gives a heading the
    number of the section that follows it. *)
Lemma numbers_not_contiguous :
  map Block.number (fst (extract_pdf pdf_blank_then_text)) = [2]
  /\ ~ numbers_contiguous (fst (extract_pdf pdf_blank_then_text))
  /\ map Block.number (fst (extract_docx no_case docx_intro)) = [1; 1]
  /\ ~ numbers_contiguous (fst (extract_docx no_case docx_intro)).
Proof.
  split; [reflexivity|]. split; [intros H; vm_compute in H; discriminate H|].
  split; [reflexivity|]. intros H; vm_compute in H; discriminate H.
Qed.

(** C1, amended.  [extract_pptx] numbers the blocks it returns 1..K.
    [extract_pdf],
    when it walks the pages with fitz or walks all of them with pdfplumber,
    gives every block the 1-based number of its page: the numbers increase
    strictly, and [k] is the number of a block exactly when page [k] has a
    non-empty cleaned text; when neither library is there, its single
    block has number 1.  [extract_docx] gives every block 1 plus the
    number of section blocks before it, so that the section blocks carry
    1, 2, ... in order. *)
Theorem numbers_by_extractor :
  (forall prs bs ims,
     extract_pptx prs = Returns (bs, ims) -> numbers_contiguous bs)
  /\ (forall pages plumber raw,
        let bs := fst (extract_pdf (PdfFile.mk (Some pages) plumber raw)) in
        StronglySorted lt (map Block.number bs)
        /\ forall k,
             In k (map Block.number bs)
             <-> exists page,
                   1 <= k /\ nth_error pages (k - 1) = Some page
                   /\ clean_text (FitzPage.get_text page) <> [])
  /\ (forall texts raw,
        let bs :=
          fst (extract_pdf (PdfFile.mk None (Some (map Some texts)) raw)) in
        StronglySorted lt (map Block.number bs)
        /\ forall k,
             In k (map Block.number bs)
             <-> exists extracted,
                   1 <= k /\ nth_error texts (k - 1) = Some extracted
                   /\ clean_text (plumber_text extracted) <> [])
  /\ (forall raw,
        map Block.number (fst (extract_pdf (PdfFile.mk None None raw))) = [1])
  /\ (forall ucd doc,
        let bs := fst (extract_docx ucd doc) in
        numbered_from 1 bs
        /\ map Block.number (filter is_section bs)
           = seq 1 (count_sections bs)).
Proof.
  split; [|split; [|split; [|split; [reflexivity|]]]].
  - intros prs bs ims H.
    apply extract_pptx_returned in H. destruct H as (_ & -> & _).
    unfold numbers_contiguous.
    rewrite slide_blocks_numbers, slide_blocks_length. reflexivity.
  - intros pages plumber raw. unfold extract_pdf. cbn [PdfFile.fitz].
    rewrite pdf_page_loop_spec. cbn [fst app]. split.
    + apply pdf_blocks_sorted.
    + intros k. rewrite pdf_blocks_numbers. split.
      * intros (t & Hk & Hn & Hc). rewrite nth_error_map in Hn.
        replace (k - 0 - 1) with (k - 1) in Hn by lia.
        destruct (nth_error pages (k - 1)) as [page|]; [|discriminate].
        exists page. simpl in Hn. injection Hn as <-.
        split; [lia|]. split; [reflexivity|exact Hc].
      * intros (page & Hk & Hn & Hc). exists (FitzPage.get_text page).
        split; [lia|]. split; [|exact Hc].
        rewrite nth_error_map. replace (k - 0 - 1) with (k - 1) by lia.
        rewrite Hn. reflexivity.
  - intros texts raw. unfold extract_pdf.
    cbn [PdfFile.fitz PdfFile.pdfplumber].
    rewrite plumber_loop_done. cbn [fst app]. split.
    + apply pdf_blocks_sorted.
    + intros k. rewrite pdf_blocks_numbers. split.
      * intros (t & Hk & Hn & Hc). rewrite nth_error_map in Hn.
        replace (k - 0 - 1) with (k - 1) in Hn by lia.
        destruct (nth_error texts (k - 1)) as [extracted|]; [|discriminate].
        exists extracted. simpl in Hn. injection Hn as <-.
        split; [lia|]. split; [reflexivity|exact Hc].
      * intros (extracted & Hk & Hn & Hc). exists (plumber_text extracted).
        split; [lia|]. split; [|exact Hc].
        rewrite nth_error_map. replace (k - 0 - 1) with (k - 1) by lia.
        rewrite Hn. reflexivity.
  - intros ucd doc.
    destruct (extract_docx_inv ucd (fun _ => True)
                (fun _ _ => I) (fun _ _ _ => I) (fun _ => I) doc)
      as (_ & Hn & _).
    split; [exact Hn|]. apply numbered_from_sections, Hn.
Qed.

(** The two slides of the sample deck carry 1 and 2. *)
Lemma numbers_by_extractor_witness :
  numbers_contiguous (slide_blocks 1 deck_hello_twice).
Proof.
  exact (proj1 numbers_by_extractor deck_hello_twice
           (slide_blocks 1 deck_hello_twice) [] eq_refl).
Defined.

(* ------------------------------------------------------------------ *)
(** ** The block an image refers to *)





(* ------------------------------------------------------------------ *)
(** ** Titles *)

Lemma split_hd_tl sep s :
  split sep s = hd [] (split sep s) :: tl (split sep s).
Proof.
  destruct s as [|c r]; simpl; [reflexivity|].
  destruct (c =? sep)%N; [reflexivity|].
  destruct (split sep r); reflexivity.
Qed.

(** The block of a slide whose shapes carry no text. *)
Lemma slide_block_no_shapes idx :
  slide_block idx [] = Block.mk idx Block.slide [] [] false.
Proof. reflexivity. Qed.

(** The titles of [extract_pdf] and of [extract_docx] are never empty. *)
Lemma pdf_docx_titles_nonempty :
  (forall f, Forall (fun b => Block.title b <> []) (fst (extract_pdf f)))
  /\ (forall ucd doc,
        Forall (fun b => Block.title b <> []) (fst (extract_docx ucd doc))).
Proof.
  assert (Hpage : forall n clean, clean <> [] ->
                    Block.title (page_block n clean) <> []).
  { intros n clean _ e. apply (f_equal (hd 0%N)) in e.
    vm_compute in e. discriminate e. }
  split.
  - intros [[pages|] plumber raw]; unfold extract_pdf; cbn [PdfFile.fitz].
    + rewrite pdf_page_loop_spec. cbn [fst app].
      apply pdf_blocks_Forall, Hpage.
    + cbn [PdfFile.pdfplumber PdfFile.raw].
      assert (H : Forall (fun b => Block.title b <> [])
                         (fst (match plumber with
                               | Some pages => plumber_loop 0 pages []
                               | None => ([], false)
                               end))).
      { destruct plumber as [pages|]; [|constructor].
        apply plumber_loop_Forall; [exact Hpage|constructor]. }
      destruct (match plumber with Some _ => _ | None => _ end) as [tc done].
      cbn [fst] in *. destruct done; [exact H|].
      apply Forall_app. split; [exact H|]. repeat constructor. discriminate.
  - intros ucd doc. apply extract_docx_inv.
    + intros n texts e. apply (f_equal (hd 0%N)) in e.
      vm_compute in e. discriminate e.
    + intros n text Ht. cbn [heading_block Block.title].
      destruct text; [discriminate Ht|discriminate].
    + intros paragraphs. discriminate.
Qed.

(** C4, on the code: a slide without text gets the empty title.  Its
    cleaned content is empty, the first fragment of the split is the empty
    string, which is shorter than 80 characters, and it replaces the
    placeholder ["Slide N"]. *)
Theorem empty_slide_has_empty_title :
  extract_pptx [[]] = Returns ([Block.mk 1 Block.slide [] [] false], [])
  /\ forall before rest bs ims,
       extract_pptx (before ++ [] :: rest) = Returns (bs, ims) ->
       nth_error bs (len before)
       = Some (Block.mk (S (len before)) Block.slide [] [] false).
Proof.
  split; [reflexivity|]. intros before rest bs ims H.
  apply extract_pptx_returned in H. destruct H as (_ & -> & _).
  rewrite slide_blocks_nth. reflexivity.
Qed.

(** A slide without shapes after a slide with a text. *)
Lemma empty_slide_has_empty_title_witness :
  nth_error
    (slide_blocks 1 [[text_shape (lit "Hello") (Returns None) None]; []]) 1
  = Some (Block.mk 2 Block.slide [] [] false).
Proof.
  exact (proj2 empty_slide_has_empty_title
           [[text_shape (lit "Hello") (Returns None) None]] []
           (slide_blocks 1 [[text_shape (lit "Hello") (Returns None) None]; []])
           [] eq_refl).
Defined.

Lemma shape_texts_single t ty im :
  nonempty (strip t) = true -> shape_texts [text_shape t ty im] = [strip t].
Proof.
  intros Ht. unfold shape_texts, text_shape. cbn [flat_map Shape.text].
  rewrite Ht. reflexivity.
Qed.

(** The block of a slide that has one text element, on a slide of index
    other than 1. *)
Lemma slide_block_later idx t ty im :
  nonempty (strip t) = true ->
  idx <> 1 ->
  let clean := clean_text (strip t) in
  let first := hd [] (split DOT clean) in
  let others := strip (join [DOT] (tl (split DOT clean))) in
  slide_block idx [text_shape t ty im]
  = if len first <? 80
    then Block.mk idx Block.slide (strip first) others (30 <? len others)
    else Block.mk idx Block.slide (lit "Slide " ++ str_of_nat idx) clean
                  (30 <? len clean).
Proof.
  intros Ht Hidx clean first others.
  unfold slide_block. rewrite (@shape_texts_single t ty im Ht).
  cbn [fold_left]. unfold text_step. cbn [has_title negb andb].
  apply Nat.eqb_neq in Hidx. rewrite Hidx, andb_false_r.
  unfold infer_title. cbn [slide_text has_title slide_title join negb app].
  fold clean. rewrite (split_hd_tl DOT clean). fold first.
  rewrite andb_true_r. destruct (len first <? 80); reflexivity.
Qed.

(** The block of the first slide when it has one short text element. *)
Lemma slide_block_first t ty im :
  nonempty (strip t) = true ->
  len (strip t) < 100 ->
  slide_block 1 [text_shape t ty im]
  = Block.mk 1 Block.slide (strip t) [] false.
Proof.
  intros Ht Hlen.
  unfold slide_block. rewrite (@shape_texts_single t ty im Ht).
  cbn [fold_left]. unfold text_step. cbn [has_title negb andb].
  apply Nat.ltb_lt in Hlen. rewrite Hlen. reflexivity.
Qed.

(** C5, as stated, fails: on the second slide the same short element is
    promoted to the title by the inference on the first fragment of the
    content, and the content is left empty. *)
Lemma second_slide_text_becomes_title :
  extract_pptx deck_hello_twice
  = Returns ([Block.mk 1 Block.slide (lit "Hello") [] false;
              Block.mk 2 Block.slide (lit "Hello") [] false], []).
Proof. reflexivity. Qed.

(** C5, amended.  Whenever [extract_pptx] returns: a single text element
    under 100 characters on the first slide is that slide's title, and the
    content of the slide is empty.  On a later slide the element is
    collected as content; when the first fragment of its cleaned text,
    split at ['.'], is shorter than 80 characters, that fragment becomes
    the title and leaves the content; otherwise the title is ["Slide N"]
    and the content is the cleaned text. *)
Theorem single_text_element :
  forall (t : str) ty im,
    nonempty (strip t) = true ->
    len (strip t) < 100 ->
    (forall rest bs ims,
       extract_pptx ([text_shape t ty im] :: rest) = Returns (bs, ims) ->
       nth_error bs 0 = Some (Block.mk 1 Block.slide (strip t) [] false))
    /\ (forall before rest bs ims,
          before <> [] ->
          extract_pptx (before ++ [text_shape t ty im] :: rest)
          = Returns (bs, ims) ->
          let idx := S (len before) in
          let clean := clean_text (strip t) in
          let first := hd [] (split DOT clean) in
          let others := strip (join [DOT] (tl (split DOT clean))) in
          nth_error bs (len before)
          = Some (if len first <? 80
                  then Block.mk idx Block.slide (strip first) others
                                (30 <? len others)
                  else Block.mk idx Block.slide
                                (lit "Slide " ++ str_of_nat idx) clean
                                (30 <? len clean))).
Proof.
  intros t ty im Ht Hlen. split.
  - intros rest bs ims H.
    apply extract_pptx_returned in H. destruct H as (_ & -> & _).
    cbn [slide_blocks nth_error].
    rewrite (@slide_block_first t ty im Ht Hlen). reflexivity.
  - intros before rest bs ims Hne H idx clean first others.
    apply extract_pptx_returned in H. destruct H as (_ & -> & _).
    rewrite slide_blocks_nth.
    change (1 + len before) with idx. f_equal.
    apply slide_block_later; [exact Ht|].
    unfold idx. destruct before; [contradiction|simpl; lia].
Qed.

(** ["Hello"] on the first and on the second slide. *)
Lemma single_text_element_witness :
  nth_error (slide_blocks 1 deck_hello_twice) 0
  = Some (Block.mk 1 Block.slide (lit "Hello") [] false)
  /\ nth_error (slide_blocks 1 deck_hello_twice) 1
     = Some (Block.mk 2 Block.slide (lit "Hello") [] false).
Proof.
  assert (Hlen : len (strip (lit "Hello")) < 100) by (vm_compute; lia).
  destruct (@single_text_element (lit "Hello") (Returns None) None eq_refl
              Hlen)
    as (H1 & H2).
  split.
  - exact (H1 [[text_shape (lit "Hello") (Returns None) None]]
              (slide_blocks 1 deck_hello_twice) [] eq_refl).
  - refine (H2 [[text_shape (lit "Hello") (Returns None) None]] []
               (slide_blocks 1 deck_hello_twice) [] _ eq_refl).
    discriminate.
Defined.

(* ------------------------------------------------------------------ *)
(** ** The flag [has_content] *)

(** The flag of a block of [extract_pdf]: the dictionary of the last
    resort, titled ["Document"], is flagged whatever its length. *)
Lemma page_block_flag n clean :
  Block.type (page_block n clean) = Block.page
  /\ Block.has_content (page_block n clean)
     = if str_eqb (Block.title (page_block n clean)) (lit "Document")
       then true
       else 50 <? len (Block.content (page_block n clean)).
Proof.
  split; [reflexivity|]. cbn [page_block Block.title Block.content
                                Block.has_content].
  unfold str_eqb.
  destruct (list_eq_dec N.eq_dec (lit "Page " ++ str_of_nat n) (lit "Document"))
    as [e|_]; [|reflexivity].
  apply (f_equal (hd 0%N)) in e. vm_compute in e. discriminate e.
Qed.

(** C6, as stated, fails: a section block is flagged whatever the length
    of its content. *)
Lemma short_section_is_flagged :
  fst (extract_docx no_case docx_short)
  = [Block.mk 1 Block.section (lit "Section 1") (lit "hi") true]
  /\ (30 <? len (lit "hi")) = false.
Proof. split; reflexivity. Qed.

(** C6, amended.  A block of [extract_pdf] has type [page]; its flag tells
    whether its content is longer than 50 characters, except for the block
    titled ["Document"] of the last resort, which is always flagged.  A
    block that [extract_pptx] returns has type [slide] and its flag tells
    whether its content is longer than 30 characters.  In [extract_docx]
    the flag is set by type, whatever the length: true for [section] and
    [document] blocks, false for [heading] blocks, whose content is
    empty. *)
Theorem has_content_by_extractor :
  (forall f,
     Forall (fun b =>
               Block.type b = Block.page
               /\ Block.has_content b
                  = if str_eqb (Block.title b) (lit "Document") then true
                    else 50 <? len (Block.content b))
            (fst (extract_pdf f)))
  /\ (forall prs bs ims,
        extract_pptx prs = Returns (bs, ims) ->
        Forall (fun b =>
                  Block.type b = Block.slide
                  /\ Block.has_content b = (30 <? len (Block.content b)))
               bs)
  /\ (forall ucd doc, Forall docx_flag_rule (fst (extract_docx ucd doc))).
Proof.
  split; [|split].
  - intros [[pages|] plumber raw]; unfold extract_pdf; cbn [PdfFile.fitz].
    + rewrite pdf_page_loop_spec. cbn [fst app].
      apply pdf_blocks_Forall. intros n clean _. apply page_block_flag.
    + cbn [PdfFile.pdfplumber PdfFile.raw].
      assert (H : Forall
                (fun b =>
                   Block.type b = Block.page
                   /\ Block.has_content b
                      = if str_eqb (Block.title b) (lit "Document") then true
                        else 50 <? len (Block.content b))
                (fst (match plumber with
                      | Some pages => plumber_loop 0 pages []
                      | None => ([], false)
                      end))).
      { destruct plumber as [pages|]; [|constructor].
        apply plumber_loop_Forall; [|constructor].
        intros n clean _. apply page_block_flag. }
      destruct (match plumber with Some _ => _ | None => _ end) as [tc done].
      cbn [fst] in *. destruct done; [exact H|].
      apply Forall_app. split; [exact H|]. repeat constructor.
  - intros prs bs ims H.
    apply extract_pptx_returned in H. destruct H as (_ & -> & _).
    apply slide_blocks_Forall. intros idx slide. split; reflexivity.
  - intros ucd doc. apply docx_flag_rule_blocks.
Qed.

(** The two slides of the sample deck. *)
Lemma has_content_by_extractor_witness :
  Forall (fun b =>
            Block.type b = Block.slide
            /\ Block.has_content b = (30 <? len (Block.content b)))
         (slide_blocks 1 deck_hello_twice).
Proof.
  exact (proj1 (proj2 has_content_by_extractor) deck_hello_twice
           (slide_blocks 1 deck_hello_twice) [] eq_refl).
Defined.

(* ------------------------------------------------------------------ *)
(** ** A heading before the content *)

(** C7. A document made of the paragraph ["INTRO"] and of two paragraphs
    that are not empty and are not headings gives two blocks: the heading
    ["INTRO"], with number 1, empty content and flag false, then the
    section ["Section 1"], whose content is the two stripped texts joined
    by a newline and cleaned.  No section comes before the heading. *)
Theorem intro_then_body :
  forall ucd style p1 p2 rels,
    nonempty (strip (Paragraph.text p1)) = true ->
    is_heading ucd (strip (Paragraph.text p1)) (Paragraph.style_name p1)
    = false ->
    nonempty (strip (Paragraph.text p2)) = true ->
    is_heading ucd (strip (Paragraph.text p2)) (Paragraph.style_name p2)
    = false ->
    fst (extract_docx ucd
           (Document.mk [Paragraph.mk (lit "INTRO") style; p1; p2] rels))
    = [Block.mk 1 Block.heading (lit "INTRO") [] false;
       Block.mk 1 Block.section (lit "Section 1")
         (clean_text (strip (Paragraph.text p1) ++ [NEWLINE]
                        ++ strip (Paragraph.text p2)))
         true].
Proof.
  intros ucd style p1 p2 rels N1 H1 N2 H2.
  unfold extract_docx, para_loop.
  cbn [Document.paragraphs fold_left fst].
  assert (E0 : para_step ucd (mkParaState [] [] 1)
                 (Paragraph.mk (lit "INTRO") style)
               = mkParaState [heading_block 1 (lit "INTRO")] [] 1)
    by reflexivity.
  assert (E1 : para_step ucd
                 (mkParaState [heading_block 1 (lit "INTRO")] [] 1) p1
               = mkParaState [heading_block 1 (lit "INTRO")]
                             [strip (Paragraph.text p1)] 1).
  { unfold para_step. rewrite N1, H1. reflexivity. }
  assert (E2 : para_step ucd
                 (mkParaState [heading_block 1 (lit "INTRO")]
                              [strip (Paragraph.text p1)] 1) p2
               = mkParaState [heading_block 1 (lit "INTRO")]
                             [strip (Paragraph.text p1);
                              strip (Paragraph.text p2)] 1).
  { unfold para_step. rewrite N2, H2. reflexivity. }
  rewrite E0, E1, E2. reflexivity.
Qed.

(** The sample document, with the texts ["first body"] and
    [" second  body "]. *)
Lemma intro_then_body_witness :
  fst (extract_docx no_case docx_intro)
  = [Block.mk 1 Block.heading (lit "INTRO") [] false;
     Block.mk 1 Block.section (lit "Section 1")
              (lit "first body second body") true].
Proof.
  exact (@intro_then_body no_case (lit "Normal")
           (normal "first body") (normal " second  body ")
           (Some [Rel.mk (Some (lit "media/image1.png"))
                         (Some [x89; x50; x4e; x47])])
           eq_refl eq_refl eq_refl eq_refl).
Defined.

(* ------------------------------------------------------------------ *)
(** ** An image that cannot be read *)








(* ------------------------------------------------------------------ *)
(** ** One block per slide *)

(** C9, as stated, fails: on a presentation whose slide holds a shape of a
    type python-pptx does not recognise, [shape.shape_type] raises and
    [extract_pptx] returns no block at all. *)
Lemma unrecognised_shape_no_block :
  len deck_unrecognised = 1
  /\ extract_pptx deck_unrecognised
     = Raises (lit "Shape instance of unrecognized shape type").
Proof. split; reflexivity. Qed.

(** C9, amended.  Whenever [extract_pptx] returns, and it does when
    [shape.shape_type] can be read on every shape, it has emitted one block
    per slide, in the order of the slides: the list of blocks has the
    length of the presentation, the block at the place of a slide is the
    block of that slide and carries its 1-based index and the type
    [slide].  A slide without shapes gives a block as well, whereas
    [extract_pdf] emits nothing for a page without text. *)
Theorem one_block_per_slide :
  (forall prs bs ims,
     extract_pptx prs = Returns (bs, ims) ->
     len bs = len prs /\ map Block.number bs = seq 1 (len prs))
  /\ (forall before slide rest bs ims,
        extract_pptx (before ++ slide :: rest) = Returns (bs, ims) ->
        nth_error bs (len before) = Some (slide_block (S (len before)) slide))
  /\ (forall idx slide,
        Block.number (slide_block idx slide) = idx
        /\ Block.type (slide_block idx slide) = Block.slide)
  /\ (forall prs,
        forallb type_returns (List.concat prs) = true ->
        exists bs ims, extract_pptx prs = Returns (bs, ims))
  /\ extract_pptx [[]] = Returns ([Block.mk 1 Block.slide [] [] false], [])
  /\ (forall images plumber raw,
        fst (extract_pdf
               (PdfFile.mk (Some [FitzPage.mk [] images]) plumber raw))
        = []).
Proof.
  split; [|split; [|split; [|split; [|split]]]].
  - intros prs bs ims H.
    apply extract_pptx_returned in H. destruct H as (_ & -> & _).
    split; [apply slide_blocks_length|apply slide_blocks_numbers].
  - intros before slide rest bs ims H.
    apply extract_pptx_returned in H. destruct H as (_ & -> & _).
    apply slide_blocks_nth.
  - intros idx slide. split; reflexivity.
  - intros prs H. rewrite (extract_pptx_returns _ H). eauto.
  - reflexivity.
  - intros images plumber raw. unfold extract_pdf. cbn [PdfFile.fitz].
    rewrite pdf_page_loop_spec. reflexivity.
Qed.

(** The sample deck of two slides. *)
Lemma one_block_per_slide_witness :
  len (slide_blocks 1 deck_hello_twice) = len deck_hello_twice
  /\ map Block.number (slide_blocks 1 deck_hello_twice)
     = seq 1 (len deck_hello_twice).
Proof.
  exact (proj1 one_block_per_slide deck_hello_twice
           (slide_blocks 1 deck_hello_twice) [] eq_refl).
Defined.


(* ------------------------------------------------------------------ *)
(** ** More on [clean_text] *)

Lemma clean_text_filter (keep : char -> bool) :
  (forall c, isspace c = true -> keep c = false) ->
  (forall c, non_ascii c = true -> keep c = false) ->
  forall s, filter keep (clean_text s) = filter keep s.
Proof.
  intros Hsp Hna s. destruct s as [|c r]; [reflexivity|].
  unfold clean_text, re_sub_plus.
  rewrite (filter_strip keep Hsp).
  rewrite (filter_sub_runs keep non_ascii Hna (Hsp SPACE eq_refl)).
  apply (filter_sub_runs keep isspace Hsp (Hsp SPACE eq_refl)).
Qed.

Lemma lstrip_head s c r : lstrip s = c :: r -> isspace c = false.
Proof.
  induction s as [|d s IH]; simpl; [discriminate|].
  destruct (isspace d) eqn:E; [exact IH|].
  intros H. injection H as <- _. exact E.
Qed.

Lemma rstrip_head s c r :
  rstrip s = c :: r -> exists r', s = c :: r'.
Proof.
  destruct s as [|d s]; simpl; [discriminate|].
  destruct (rstrip s); [destruct (isspace d)|]; intros H;
    try discriminate H; injection H as <- _; eauto.
Qed.

Lemma rstrip_last s r c : rstrip s = r ++ [c] -> isspace c = false.
Proof.
  revert r. induction s as [|d s IH]; intros r; simpl.
  - destruct r; discriminate.
  - destruct (rstrip s) as [|e t] eqn:E.
    + destruct (isspace d) eqn:Ed; [destruct r; discriminate|].
      destruct r as [|x r]; intros H.
      * injection H as <-. exact Ed.
      * injection H as _ H. destruct r; discriminate H.
    + destruct r as [|x r]; intros H; [discriminate H|].
      injection H as _ H. exact (IH r H).
Qed.

Lemma lstrip_length s : len (lstrip s) <= len s.
Proof.
  induction s as [|c r IH]; simpl; [lia|]. destruct (isspace c); simpl; lia.
Qed.

Lemma rstrip_length s : len (rstrip s) <= len s.
Proof.
  induction s as [|c r IH]; simpl; [lia|].
  destruct (rstrip r); [destruct (isspace c)|]; simpl in *; lia.
Qed.

Lemma sub_runs_length cls s : forall in_run,
  len (sub_runs cls in_run s) <= len s.
Proof.
  induction s as [|c r IH]; intros in_run; simpl; [lia|].
  destruct (cls c); [destruct in_run|]; simpl;
    [specialize (IH true)|specialize (IH true)|specialize (IH false)]; lia.
Qed.

Lemma lstrip_all_space s : forallb isspace s = true -> lstrip s = [].
Proof.
  induction s as [|c r IH]; simpl; [reflexivity|].
  destruct (isspace c); [exact IH|discriminate].
Qed.

(** [clean_text] never makes a text longer. *)
Theorem clean_text_length s : len (clean_text s) <= len s.
Proof.
  destruct s as [|c r]; [simpl; lia|].
  unfold clean_text, re_sub_plus, strip.
  etransitivity; [apply rstrip_length|].
  etransitivity; [apply lstrip_length|].
  etransitivity; [apply sub_runs_length|]. apply sub_runs_length.
Qed.

(** The result of [clean_text] neither starts nor ends with a whitespace
    character, and the only whitespace character in it is the space. *)
Theorem clean_text_trimmed s :
  (forall c r, clean_text s = c :: r -> isspace c = false)
  /\ (forall r c, clean_text s = r ++ [c] -> isspace c = false)
  /\ Forall (fun c => isspace c = true -> c = SPACE) (clean_text s).
Proof.
  destruct s as [|d s].
  { split; [discriminate|]. split; [intros []; discriminate|constructor]. }
  remember (d :: s) as t eqn:Et.
  assert (E : clean_text t
              = strip (re_sub_plus non_ascii (re_sub_plus isspace t)))
    by (subst t; reflexivity).
  clear Et. rewrite E. unfold strip. split; [|split].
  - intros c r H. destruct (@rstrip_head _ _ _ H) as (r' & H').
    exact (@lstrip_head _ _ _ H').
  - intros r c H. exact (@rstrip_last _ _ _ H).
  - apply Forall_rstrip, Forall_lstrip. unfold re_sub_plus.
    apply Forall_sub_runs; [reflexivity|].
    apply Forall_impl with (P := fun c => isspace c = true -> c = SPACE);
      [auto|].
    apply Forall_sub_runs; [reflexivity|].
    apply Forall_forall. intros c _ Hc Hs. congruence.
Qed.

Lemma clean_text_nil s :
  clean_text s = [] <-> forallb (fun c => isspace c || non_ascii c) s = true.
Proof.
  split.
  - intros H.
    pose proof (clean_text_filter ascii_nonspace ascii_nonspace_not_space
                  ascii_nonspace_not_high s) as F.
    rewrite H in F. simpl in F.
    apply forallb_forall. intros c Hc.
    destruct (isspace c) eqn:Es; [reflexivity|]. simpl.
    destruct (non_ascii c) eqn:En; [reflexivity|]. exfalso.
    assert (Hin : In c (filter ascii_nonspace s)).
    { apply filter_In. split; [exact Hc|].
      unfold ascii_nonspace. rewrite Es. unfold non_ascii in En.
      apply N.ltb_ge in En. apply N.leb_le in En. rewrite En. reflexivity. }
    rewrite <- F in Hin. destruct Hin.
  - intros H. destruct s as [|d s]; [reflexivity|].
    remember (d :: s) as t eqn:Et.
    assert (E : clean_text t
                = strip (re_sub_plus non_ascii (re_sub_plus isspace t)))
      by (subst t; reflexivity).
    clear Et. rewrite E. unfold strip.
    rewrite lstrip_all_space; [reflexivity|].
    apply forallb_forall.
    assert (F : Forall (fun c => isspace c = true)
                       (re_sub_plus non_ascii (re_sub_plus isspace t))).
    { unfold re_sub_plus. apply Forall_sub_runs; [reflexivity|].
      apply Forall_impl
        with (P := fun c => isspace c = true \/ non_ascii c = true).
      - intros c [Hc|Hc] Hn; [exact Hc|congruence].
      - apply Forall_sub_runs; [left; reflexivity|].
        apply Forall_forall. intros c Hc Hs. right.
        rewrite forallb_forall in H. specialize (H c Hc).
        rewrite Hs in H. exact H. }
    rewrite Forall_forall in F. exact F.
Qed.

(** [clean_text] gives the empty text exactly on the texts in which every
    character is whitespace or above 0x7F. *)
Theorem clean_text_empty_iff s :
  clean_text s = [] <-> forallb (fun c => isspace c || non_ascii c) s = true.
Proof. apply clean_text_nil. Qed.


(* ------------------------------------------------------------------ *)
(** ** The identifiers of the images are unique *)

Lemma lit_inj a b : lit a = lit b -> a = b.
Proof.
  unfold lit. intros H.
  rewrite <- (string_of_list_ascii_of_string a),
          <- (string_of_list_ascii_of_string b).
  f_equal. revert H.
  generalize (list_ascii_of_string a) (list_ascii_of_string b).
  intros l. induction l as [|x l IH]; intros [|y m] H; simpl in H;
    try discriminate H; [reflexivity|].
  injection H as Hxy H. f_equal; [|apply IH, H].
  rewrite <- (ascii_N_embedding x), <- (ascii_N_embedding y), Hxy.
  reflexivity.
Qed.

Lemma str_of_nat_inj n m : str_of_nat n = str_of_nat m -> n = m.
Proof.
  unfold str_of_nat. intros H. apply lit_inj in H.
  apply DecimalNat.Unsigned.to_uint_inj.
  assert (E : Some (Nat.to_uint n) = Some (Nat.to_uint m)).
  { rewrite <- !NilEmpty.usu, H. reflexivity. }
  injection E as E. exact E.
Qed.

Lemma string_of_uint_digits d :
  Forall is_digit (lit (NilEmpty.string_of_uint d)).
Proof.
  induction d; cbn [NilEmpty.string_of_uint]; try constructor;
    try exact IHd; unfold is_digit; vm_compute; split; discriminate.
Qed.

Lemma str_of_nat_digits n : Forall is_digit (str_of_nat n).
Proof. apply string_of_uint_digits. Qed.

(** Two texts made of digits, each followed by the same character that is
    not a digit, are equal when what they start is. *)
Lemma digits_then_sep a : forall a' x b b',
  Forall is_digit a -> Forall is_digit a' -> ~ is_digit x ->
  a ++ x :: b = a' ++ x :: b' -> a = a' /\ b = b'.
Proof.
  induction a as [|c a IH]; intros [|c' a'] x b b' Ha Ha' Hx H; simpl in H.
  - injection H as H. auto.
  - injection H as -> _. inversion Ha'; subst. contradiction.
  - injection H as -> _. inversion Ha; subst. contradiction.
  - injection H as -> H. inversion Ha; inversion Ha'; subst.
    destruct (IH a' x b b') as (-> & ->); auto.
Qed.

Lemma counter_id_inj (prefix : str) p i p' i' :
  prefix ++ str_of_nat p ++ lit "_img" ++ str_of_nat i
  = prefix ++ str_of_nat p' ++ lit "_img" ++ str_of_nat i' ->
  p = p' /\ i = i'.
Proof.
  intros H. apply app_inv_head in H.
  change (lit "_img") with (95%N :: lit "img") in H.
  apply digits_then_sep in H; try apply str_of_nat_digits.
  - destruct H as (Hp & Hi). apply app_inv_head in Hi.
    split; apply str_of_nat_inj; assumption.
  - unfold is_digit. lia.
Qed.

Lemma pdf_id_inj p i p' i' : pdf_id p i = pdf_id p' i' -> p = p' /\ i = i'.
Proof. apply counter_id_inj. Qed.

Lemma pptx_id_inj p i p' i' : pptx_id p i = pptx_id p' i' -> p = p' /\ i = i'.
Proof. apply counter_id_inj. Qed.

Lemma docx_id_inj n m : docx_id n = docx_id m -> n = m.
Proof.
  unfold docx_id. intros H. apply app_inv_head in H.
  apply str_of_nat_inj, H.
Qed.

(** *** [extract_pdf] *)

Lemma page_images_ids page_num image_list : forall img_index im,
  In im (page_images page_num img_index image_list) ->
  exists i, img_index <= i /\ Image.id im = pdf_id page_num i.
Proof.
  induction image_list as [|img rest IH]; intros img_index im;
    cbn [page_images]; [intros []|].
  intros H. apply in_app_or in H. destruct H as [H|H].
  - destruct img as [[image_bytes ext]|]; cbn [pdf_image] in H;
      [|destruct H].
    destruct H as [<-|[]]. exists img_index. split; [lia|reflexivity].
  - destruct (IH _ _ H) as (i & Hi & E). exists i. split; [lia|exact E].
Qed.

Lemma page_images_NoDup page_num image_list : forall img_index,
  NoDup (map Image.id (page_images page_num img_index image_list)).
Proof.
  induction image_list as [|img rest IH]; intros img_index;
    cbn [page_images]; [constructor|].
  destruct img as [[image_bytes ext]|]; cbn [pdf_image app map Image.id];
    [|apply IH].
  constructor; [|apply IH].
  intros H. apply in_map_iff in H. destruct H as (im & E & Him).
  destruct (page_images_ids _ _ _ _ Him) as (i & Hi & E').
  rewrite E' in E. apply pdf_id_inj in E. lia.
Qed.

Lemma pdf_images_ids pages : forall page_num im,
  In im (pdf_images page_num pages) ->
  exists p i, page_num <= p /\ Image.id im = pdf_id p i.
Proof.
  induction pages as [|page rest IH]; intros page_num im;
    cbn [pdf_images]; [intros []|].
  intros H. apply in_app_or in H. destruct H as [H|H].
  - destruct (page_images_ids _ _ _ _ H) as (i & _ & E).
    exists page_num, i. split; [lia|exact E].
  - destruct (IH _ _ H) as (p & i & Hp & E). exists p, i.
    split; [lia|exact E].
Qed.

Lemma NoDup_app_disjoint {A} (l1 l2 : list A) :
  NoDup l1 -> NoDup l2 -> (forall x, In x l1 -> In x l2 -> False) ->
  NoDup (l1 ++ l2).
Proof.
  induction l1 as [|a l1 IH]; intros H1 H2 Hd; simpl; [exact H2|].
  inversion H1; subst. constructor.
  - intros Hin. apply in_app_or in Hin. destruct Hin as [Hin|Hin];
      [contradiction|]. apply (Hd a); [left; reflexivity|exact Hin].
  - apply IH; auto. intros x Hx. apply Hd. right. exact Hx.
Qed.

Lemma pdf_images_NoDup pages : forall page_num,
  NoDup (map Image.id (pdf_images page_num pages)).
Proof.
  induction pages as [|page rest IH]; intros page_num;
    cbn [pdf_images]; [constructor|].
  rewrite map_app. apply NoDup_app_disjoint.
  - apply page_images_NoDup.
  - apply IH.
  - intros x H1 H2.
    apply in_map_iff in H1. destruct H1 as (im1 & E1 & H1).
    apply in_map_iff in H2. destruct H2 as (im2 & E2 & H2).
    destruct (page_images_ids _ _ _ _ H1) as (i & _ & F1).
    destruct (pdf_images_ids _ _ _ H2) as (p & j & Hp & F2).
    rewrite F1 in E1. rewrite F2, <- E1 in E2.
    apply pdf_id_inj in E2. lia.
Qed.

(** In the result of [extract_pdf] no two images have the same [id]. *)
Theorem extract_pdf_ids_unique f :
  NoDup (map Image.id (snd (extract_pdf f))).
Proof.
  unfold extract_pdf. destruct f as [[pages|] plumber raw];
    cbn [PdfFile.fitz].
  - rewrite pdf_page_loop_spec. cbn [snd app]. apply pdf_images_NoDup.
  - destruct (match plumber with Some _ => _ | None => _ end) as [tc done].
    constructor.
Qed.

(** *** Counters that run over the whole list *)

Lemma counted_from_app mk_id l im : forall start,
  counted_from mk_id start (l ++ [im])
  <-> counted_from mk_id start l /\ Image.id im = mk_id im (start + len l).
Proof.
  induction l as [|a l IH]; intros start; cbn [app counted_from len].
  - rewrite Nat.add_0_r. tauto.
  - rewrite IH. replace (S start + len l) with (start + S (len l)) by lia.
    tauto.
Qed.

Lemma counted_from_NoDup mk_id :
  (forall im n im' n', mk_id im n = mk_id im' n' -> n = n') ->
  forall l start, counted_from mk_id start l -> NoDup (map Image.id l).
Proof.
  intros Hinj l.
  assert (Hge : forall l start im,
             counted_from mk_id start l -> In im l ->
             exists n, start <= n /\ Image.id im = mk_id im n).
  { clear l. induction l as [|a l IH]; intros start im H Hin; [destruct Hin|].
    destruct H as (Ha & Hl). destruct Hin as [<-|Hin].
    - exists start. split; [lia|exact Ha].
    - destruct (IH _ _ Hl Hin) as (n & Hn & E). exists n. split; [lia|exact E]. }
  induction l as [|a l IH]; intros start H; cbn [map]; [constructor|].
  destruct H as (Ha & Hl). constructor; [|apply (IH _ Hl)].
  intros Hin. apply in_map_iff in Hin. destruct Hin as (im & E & Hin).
  destruct (Hge _ _ _ Hl Hin) as (n & Hn & E').
  rewrite Ha, E' in E. apply Hinj in E. lia.
Qed.

(** *** [extract_pptx] *)

Lemma counted_from_append mk_id l1 l2 : forall start,
  counted_from mk_id start (l1 ++ l2)
  <-> counted_from mk_id start l1 /\ counted_from mk_id (start + len l1) l2.
Proof.
  induction l1 as [|a l1 IH]; intros start; cbn [app counted_from len].
  - rewrite Nat.add_0_r. tauto.
  - rewrite IH. replace (S start + len l1) with (start + S (len l1)) by lia.
    tauto.
Qed.

Lemma shape_image_counted idx shape n :
  counted_from (fun im k => pptx_id (Image.slide im) k) n
               (shape_image idx shape n).
Proof.
  unfold shape_image.
  destruct (Shape.shape_type shape) as [ty|]; [|exact I].
  destruct (Shape.image shape) as [[image_bytes image_ext]|]; [|exact I].
  destruct (is_picture ty); [|exact I]. split; [reflexivity|exact I].
Qed.

Lemma slide_images_counted idx shapes : forall n,
  counted_from (fun im k => pptx_id (Image.slide im) k) n
               (slide_images idx shapes n).
Proof.
  induction shapes as [|shape rest IH]; intros n; cbn [slide_images];
    [exact I|].
  apply counted_from_append. split; [apply shape_image_counted|apply IH].
Qed.

Lemma deck_images_counted slides : forall idx n,
  counted_from (fun im k => pptx_id (Image.slide im) k) n
               (deck_images idx slides n).
Proof.
  induction slides as [|slide rest IH]; intros idx n; cbn [deck_images];
    [exact I|].
  apply counted_from_append. split; [apply slide_images_counted|apply IH].
Qed.

(** In a result of [extract_pptx] the identifier of the image at place
    [n] (from 0) of the list, over all slides, is
    ["pptx_s<slide>_img<n>"]; no two images have the same [id]. *)
Theorem extract_pptx_ids prs bs ims :
  extract_pptx prs = Returns (bs, ims) ->
  counted_from (fun im n => pptx_id (Image.slide im) n) 0 ims
  /\ NoDup (map Image.id ims).
Proof.
  intros H. apply extract_pptx_returned in H. destruct H as (_ & _ & ->).
  pose proof (deck_images_counted prs 1 0) as H.
  split; [exact H|].
  apply (@counted_from_NoDup (fun im n => pptx_id (Image.slide im) n))
    with (start := 0); [|exact H].
  intros im n im' n' E. apply pptx_id_inj in E. tauto.
Qed.

(** The picture of the sample deck. *)
Lemma extract_pptx_ids_witness :
  counted_from (fun im n => pptx_id (Image.slide im) n) 0
               (deck_images 1 deck_picture 0)
  /\ NoDup (map Image.id (deck_images 1 deck_picture 0)).
Proof.
  exact (@extract_pptx_ids deck_picture (slide_blocks 1 deck_picture)
           (deck_images 1 deck_picture 0) eq_refl).
Defined.

(** *** [extract_docx] *)

Lemma rel_loop_counted rels : forall images0,
  counted_from (fun _ n => docx_id n) 0 images0 ->
  counted_from (fun _ n => docx_id n) 0 (rel_loop rels images0).
Proof.
  induction rels as [|rel rest IH]; intros images0 H; cbn [rel_loop];
    [exact H|].
  destruct (Rel.target_ref rel) as [ref|]; [|exact H].
  apply IH. destruct (contains ref (lit "image")); [|exact H].
  destruct (Rel.blob rel) as [image|]; [|exact H].
  apply counted_from_app. split; [exact H|reflexivity].
Qed.

(** In the result of [extract_docx] the identifiers of the images are
    ["docx_img0"], ["docx_img1"], ... in the order of the list, whatever
    relationships were skipped; no two images have the same [id]. *)
Theorem extract_docx_ids ucd doc :
  map Image.id (snd (extract_docx ucd doc))
  = map docx_id (seq 0 (len (snd (extract_docx ucd doc))))
  /\ NoDup (map Image.id (snd (extract_docx ucd doc))).
Proof.
  assert (H : counted_from (fun _ n => docx_id n) 0
                           (snd (extract_docx ucd doc))).
  { unfold extract_docx. cbn [snd].
    destruct (Document.rels doc) as [rels|]; [|exact I].
    apply rel_loop_counted. exact I. }
  split.
  - revert H. generalize (snd (extract_docx ucd doc)) 0.
    intros l. induction l as [|im l IH]; intros start H; [reflexivity|].
    destruct H as (Ha & Hl). cbn [map len seq]. rewrite Ha, (IH _ Hl).
    reflexivity.
  - apply (@counted_from_NoDup (fun _ n => docx_id n)) with (start := 0);
      [|exact H].
    intros _ n _ n' E. apply docx_id_inj, E.
Qed.


(* ------------------------------------------------------------------ *)
(** ** More on [extract_pdf] *)

Lemma has_visible_clean text :
  has_visible text = nonempty (clean_text text).
Proof.
  unfold has_visible.
  destruct (clean_text text) as [|c r] eqn:E; cbn [nonempty].
  - apply clean_text_nil in E. apply not_true_is_false. intros H.
    apply existsb_exists in H. destruct H as (c & Hc & Hv).
    rewrite forallb_forall in E. specialize (E c Hc).
    unfold ascii_nonspace in Hv. apply andb_prop in Hv. destruct Hv as (Ha & Hs).
    apply negb_true_iff in Hs. rewrite Hs in E. cbn [orb] in E.
    unfold non_ascii in E. apply N.ltb_lt in E. apply N.leb_le in Ha. lia.
  - destruct (existsb ascii_nonspace text) eqn:H; [reflexivity|]. exfalso.
    assert (F : clean_text text = []); [|congruence].
    apply clean_text_nil. apply forallb_forall. intros x Hx.
    destruct (isspace x) eqn:Es; [reflexivity|]. cbn [orb].
    unfold non_ascii. apply N.ltb_lt.
    destruct (N.leb_spec x 127) as [Hle|Hgt]; [|exact Hgt]. exfalso.
    assert (Hex : existsb ascii_nonspace text = true); [|congruence].
    apply existsb_exists. exists x. split; [exact Hx|].
    unfold ascii_nonspace. rewrite Es.
    apply N.leb_le in Hle. rewrite Hle. reflexivity.
Qed.

Lemma pdf_blocks_pages texts : forall page_num,
  Forall (fun b =>
            exists text,
              page_num < Block.number b
              /\ nth_error texts (Block.number b - page_num - 1) = Some text
              /\ clean_text text <> []
              /\ b = page_block (Block.number b) (clean_text text))
         (pdf_blocks page_num texts).
Proof.
  induction texts as [|text rest IH]; intros page_num; cbn [pdf_blocks];
    [constructor|].
  assert (H : Forall (fun b =>
                 exists t,
                   page_num < Block.number b
                   /\ nth_error (text :: rest) (Block.number b - page_num - 1)
                      = Some t
                   /\ clean_text t <> []
                   /\ b = page_block (Block.number b) (clean_text t))
                (pdf_blocks (S page_num) rest)).
  { eapply Forall_impl; [|apply IH]. cbn beta.
    intros b (t & Hn & Ht & Hc & Hb). exists t. split; [lia|].
    split; [|split; assumption].
    replace (Block.number b - page_num - 1)
      with (S (Block.number b - S page_num - 1)) by lia.
    exact Ht. }
  destruct (clean_text text) as [|c r] eqn:E; [exact H|].
  constructor; [|exact H].
  exists text. cbn [page_block Block.number]. split; [lia|].
  replace (page_num + 1 - page_num - 1) with 0 by lia.
  split; [reflexivity|]. rewrite E. split; [discriminate|reflexivity].
Qed.

Lemma pdf_blocks_count texts : forall page_num,
  len (pdf_blocks page_num texts) = len (filter has_visible texts).
Proof.
  induction texts as [|text rest IH]; intros page_num;
    cbn [pdf_blocks filter]; [reflexivity|].
  rewrite has_visible_clean.
  destruct (clean_text text); cbn [nonempty len]; rewrite IH; reflexivity.
Qed.

(** With fitz, every block of [extract_pdf] is the block of the page whose
    1-based number it carries: its content is the cleaned text of that
    page, which is not empty, and its title is ["Page "] followed by the
    number.  There are as many blocks as pages whose text has an ASCII
    character that is not whitespace. *)
Theorem extract_pdf_blocks_are_pages pages plumber raw :
  let bs := fst (extract_pdf (PdfFile.mk (Some pages) plumber raw)) in
  Forall (fun b =>
            exists page,
              1 <= Block.number b
              /\ nth_error pages (Block.number b - 1) = Some page
              /\ Block.content b = clean_text (FitzPage.get_text page)
              /\ Block.content b <> []
              /\ Block.title b = lit "Page " ++ str_of_nat (Block.number b)
              /\ Block.type b = Block.page)
         bs
  /\ len bs
     = len (filter (fun page => has_visible (FitzPage.get_text page)) pages).
Proof.
  cbn zeta. unfold extract_pdf. cbn [PdfFile.fitz].
  rewrite pdf_page_loop_spec. cbn [fst app]. split.
  - eapply Forall_impl; [|apply pdf_blocks_pages]. cbn beta.
    intros b (t & Hn & Ht & Hc & Hb).
    rewrite nth_error_map in Ht.
    replace (Block.number b - 0 - 1) with (Block.number b - 1) in Ht by lia.
    destruct (nth_error pages (Block.number b - 1)) as [page|];
      [|discriminate Ht].
    cbn [option_map] in Ht. injection Ht as <-.
    exists page. split; [lia|]. split; [reflexivity|].
    rewrite Hb. cbn [page_block Block.content Block.title Block.type
                       Block.number].
    repeat split; assumption.
  - rewrite pdf_blocks_count.
    induction pages as [|page rest IH]; [reflexivity|].
    cbn [map filter]. destruct (has_visible (FitzPage.get_text page));
      cbn [len]; rewrite IH; reflexivity.
Qed.

(** *** Without fitz *)

Lemma plumber_loop_raises texts rest : forall i text_content,
  plumber_loop i (map Some texts ++ None :: rest) text_content
  = (text_content ++ pdf_blocks i (map plumber_text texts), false).
Proof.
  induction texts as [|extracted more IH]; intros i text_content;
    cbn [plumber_loop pdf_blocks map app].
  - rewrite app_nil_r. reflexivity.
  - rewrite IH. fold (plumber_text extracted).
    destruct (clean_text (plumber_text extracted));
      rewrite <- ?app_assoc; reflexivity.
Qed.

(** When fitz cannot be imported, [extract_pdf] returns no image.  When
    pdfplumber cannot be used either, the result is the single block of
    the raw text.  When pdfplumber raises on a page, the blocks of the
    pages before it are kept, the pages after it are not read, and the
    block of the raw text, with number 1, is appended. *)
Theorem extract_pdf_without_fitz :
  (forall plumber raw, snd (extract_pdf (PdfFile.mk None plumber raw)) = [])
  /\ (forall raw,
        extract_pdf (PdfFile.mk None None raw) = ([raw_block raw], []))
  /\ (forall texts rest raw,
        extract_pdf
          (PdfFile.mk None (Some (map Some texts ++ None :: rest)) raw)
        = (pdf_blocks 0 (map plumber_text texts) ++ [raw_block raw], [])).
Proof.
  split; [|split].
  - intros plumber raw. unfold extract_pdf. cbn [PdfFile.fitz].
    destruct (match PdfFile.pdfplumber _ with Some _ => _ | None => _ end)
      as [tc done]. reflexivity.
  - reflexivity.
  - intros texts rest raw. unfold extract_pdf.
    cbn [PdfFile.fitz PdfFile.pdfplumber PdfFile.raw].
    rewrite plumber_loop_raises. reflexivity.
Qed.

(** *** The images, in the order of the pages *)

Lemma page_images_count page_num image_list : forall img_index,
  len (page_images page_num img_index image_list)
  = len (filter is_readable image_list).
Proof.
  induction image_list as [|img rest IH]; intros img_index;
    cbn [page_images filter]; [reflexivity|].
  rewrite length_app, IH.
  destruct img as [[image_bytes ext]|]; reflexivity.
Qed.

Lemma pdf_images_bounds pages : forall page_num,
  Forall (fun n => page_num < n) (map Image.slide (pdf_images page_num pages)).
Proof.
  induction pages as [|page rest IH]; intros page_num; cbn [pdf_images];
    [constructor|].
  rewrite map_app. apply Forall_app. split.
  - apply Forall_map. eapply Forall_impl; [|apply page_images_slide].
    cbn beta. intros im ->. lia.
  - eapply Forall_impl; [|apply IH]. cbn beta. intros n Hn. lia.
Qed.

Lemma StronglySorted_app_le l1 : forall l2 (k : nat),
  Forall (fun n => n = k) l1 ->
  Forall (fun n => k < n) l2 ->
  StronglySorted le l2 ->
  StronglySorted le (l1 ++ l2).
Proof.
  induction l1 as [|a l1 IH]; intros l2 k H1 H2 Hs; cbn [app]; [exact Hs|].
  inversion H1 as [|? ? Ha H1']; subst. constructor; [eapply IH; eauto|].
  apply Forall_app. split.
  - eapply Forall_impl; [|exact H1']. cbn beta. intros n ->. lia.
  - eapply Forall_impl; [|exact H2]. cbn beta. intros n Hn. lia.
Qed.

Lemma pdf_images_sorted pages : forall page_num,
  StronglySorted le (map Image.slide (pdf_images page_num pages)).
Proof.
  induction pages as [|page rest IH]; intros page_num; cbn [pdf_images];
    [constructor|].
  rewrite map_app. apply StronglySorted_app_le with (k := page_num + 1).
  - apply Forall_map. apply page_images_slide.
  - eapply Forall_impl; [|apply pdf_images_bounds]. cbn beta.
    intros n Hn. lia.
  - apply IH.
Qed.

(** With fitz, [extract_pdf] returns one image for every entry of the image
    lists that can be read, and none for the others; the images come in
    the order of the pages. *)
Theorem extract_pdf_images_in_order pages plumber raw :
  let ims := snd (extract_pdf (PdfFile.mk (Some pages) plumber raw)) in
  len ims
  = len (filter is_readable (List.concat (map FitzPage.get_images pages)))
  /\ StronglySorted le (map Image.slide ims).
Proof.
  cbn zeta. unfold extract_pdf. cbn [PdfFile.fitz].
  rewrite pdf_page_loop_spec. cbn [snd app]. split.
  - generalize 0. induction pages as [|page rest IH]; intros n;
      cbn [pdf_images map List.concat]; [reflexivity|].
    rewrite length_app, filter_app, length_app, IH, page_images_count.
    reflexivity.
  - apply pdf_images_sorted.
Qed.


(* ------------------------------------------------------------------ *)
(** ** More on [extract_pptx] *)

Lemma text_loop_append idx texts : forall st,
  has_title st = true \/ idx <> 1 ->
  fold_left (text_step idx) texts st
  = mkShapeState (slide_title st) (has_title st) (slide_text st ++ texts)
                 (images st).
Proof.
  induction texts as [|text rest IH]; intros st H; cbn [fold_left].
  - rewrite app_nil_r. destruct st; reflexivity.
  - assert (E : text_step idx st text
                = mkShapeState (slide_title st) (has_title st)
                               (slide_text st ++ [text]) (images st)).
    { unfold text_step. destruct H as [H|H].
      - rewrite H. reflexivity.
      - apply Nat.eqb_neq in H. rewrite H, andb_false_r. reflexivity. }
    rewrite E, IH by exact H. cbn. rewrite <- app_assoc. reflexivity.
Qed.

Lemma text_loop_first texts : forall st,
  has_title st = false ->
  fold_left (text_step 1) texts st
  = match pick_title texts with
    | Some (title, others) =>
        mkShapeState title true (slide_text st ++ others) (images st)
    | None =>
        mkShapeState (slide_title st) false (slide_text st ++ texts)
                     (images st)
    end.
Proof.
  induction texts as [|text rest IH]; intros st H;
    cbn [fold_left pick_title].
  - rewrite app_nil_r. destruct st; cbn in *; subst; reflexivity.
  - unfold text_step at 2. rewrite H. cbn [negb andb Nat.eqb].
    rewrite andb_true_r. destruct (len text <? 100).
    + rewrite text_loop_append by (left; reflexivity). reflexivity.
    + rewrite IH by reflexivity. cbn.
      destruct (pick_title rest) as [[title others]|];
        rewrite <- app_assoc; reflexivity.
Qed.

Lemma slide_block_untitled idx title texts ims :
  title = lit "Slide " ++ str_of_nat idx ->
  let st := mkShapeState title false texts ims in
  Block.mk idx Block.slide (fst (infer_title st)) (snd (infer_title st))
           (30 <? len (snd (infer_title st)))
  = inferred_block idx texts.
Proof.
  intros -> st. unfold st, infer_title, inferred_block.
  cbn [slide_text has_title slide_title negb].
  rewrite (split_hd_tl DOT (clean_text (join [NEWLINE] texts))) at 1 2 3.
  rewrite andb_true_r.
  destruct (len (hd [] (split DOT (clean_text (join [NEWLINE] texts)))) <? 80);
    reflexivity.
Qed.

Lemma slide_block_titled idx title texts ims :
  let st := mkShapeState title true texts ims in
  Block.mk idx Block.slide (fst (infer_title st)) (snd (infer_title st))
           (30 <? len (snd (infer_title st)))
  = titled_block idx title texts.
Proof.
  intros st. unfold st, infer_title, titled_block.
  cbn [slide_text has_title slide_title negb].
  destruct (split DOT (clean_text (join [NEWLINE] texts))); [reflexivity|].
  rewrite andb_false_r. reflexivity.
Qed.

Lemma slide_block_later_texts idx slide :
  idx <> 1 -> slide_block idx slide = inferred_block idx (shape_texts slide).
Proof.
  intros Hidx. unfold slide_block.
  rewrite text_loop_append by (right; exact Hidx).
  cbn [slide_title has_title slide_text images app].
  apply slide_block_untitled. reflexivity.
Qed.

Lemma slide_block_first_texts slide :
  slide_block 1 slide
  = match pick_title (shape_texts slide) with
    | Some (title, others) => titled_block 1 title others
    | None => inferred_block 1 (shape_texts slide)
    end.
Proof.
  unfold slide_block.
  rewrite text_loop_first by reflexivity.
  cbn [slide_title has_title slide_text images app].
  destruct (pick_title (shape_texts slide)) as [[title others]|].
  - apply slide_block_titled.
  - apply slide_block_untitled. reflexivity.
Qed.

(** Whenever [extract_pptx] returns, the block of every slide after the
    first is computed from the stripped texts of the shapes alone: they
    are joined by newlines and cleaned; when the first fragment up to a
    ['.'] is shorter than 80 characters it is the title and the rest is
    the content, otherwise the title is ["Slide N"] and the content is the
    whole cleaned text.  No shape gives the title by its place. *)
Theorem later_slide_block :
  forall before slide rest bs ims,
    before <> [] ->
    extract_pptx (before ++ slide :: rest) = Returns (bs, ims) ->
    nth_error bs (len before)
    = Some (inferred_block (S (len before)) (shape_texts slide)).
Proof.
  intros before slide rest bs ims Hne H.
  apply extract_pptx_returned in H. destruct H as (_ & -> & _).
  rewrite slide_blocks_nth. f_equal.
  apply slide_block_later_texts.
  destruct before; [contradiction|simpl; lia].
Qed.

Lemma later_slide_block_witness :
  nth_error (slide_blocks 1 deck_hello_twice) 1
  = Some (inferred_block 2 [lit "Hello"]).
Proof.
  refine (@later_slide_block
            [[text_shape (lit "Hello") (Returns None) None]]
            [text_shape (lit "Hello") (Returns None) None] []
            (slide_blocks 1 deck_hello_twice) [] _ eq_refl).
  discriminate.
Defined.

(** Whenever [extract_pptx] returns, the title of the first slide is the
    first text shorter than 100 characters among the stripped texts of
    the shapes, wherever its shape stands, and the content is made of the
    other texts, in their order, joined by newlines and cleaned.  When no
    text is that short the block is computed as on the other slides. *)
Theorem first_slide_block :
  forall slide rest bs ims,
    extract_pptx (slide :: rest) = Returns (bs, ims) ->
    nth_error bs 0
    = Some match pick_title (shape_texts slide) with
           | Some (title, others) => titled_block 1 title others
           | None => inferred_block 1 (shape_texts slide)
           end.
Proof.
  intros slide rest bs ims H.
  apply extract_pptx_returned in H. destruct H as (_ & -> & _).
  cbn [slide_blocks nth_error]. f_equal. apply slide_block_first_texts.
Qed.

Lemma first_slide_block_witness :
  nth_error (slide_blocks 1 deck_picture) 0
  = Some (titled_block 1 (lit "Hello") []).
Proof.
  exact (@first_slide_block
           [text_shape (lit "Hello") (Returns None) None;
            picture None (Some ([x01; x02; x03; x04], None))]
           [] (slide_blocks 1 deck_picture) (deck_images 1 deck_picture 0)
           eq_refl).
Defined.

(** *** The images, in the order of the slides *)

Lemma shape_image_count idx shape n :
  len (shape_image idx shape n) = if is_readable_picture shape then 1 else 0.
Proof.
  unfold shape_image, is_readable_picture.
  destruct (Shape.shape_type shape) as [ty|]; [|reflexivity].
  destruct (Shape.image shape) as [[image_bytes image_ext]|]; [|reflexivity].
  destruct (is_picture ty); reflexivity.
Qed.

Lemma slide_images_count idx shapes : forall n,
  len (slide_images idx shapes n) = len (filter is_readable_picture shapes).
Proof.
  induction shapes as [|shape rest IH]; intros n; cbn [slide_images filter];
    [reflexivity|].
  rewrite length_app, IH, shape_image_count.
  destruct (is_readable_picture shape); reflexivity.
Qed.

Lemma deck_images_count slides : forall idx n,
  len (deck_images idx slides n)
  = len (filter is_readable_picture (List.concat slides)).
Proof.
  induction slides as [|slide rest IH]; intros idx n;
    cbn [deck_images List.concat]; [reflexivity|].
  rewrite length_app, filter_app, length_app, IH, slide_images_count.
  reflexivity.
Qed.

Lemma deck_images_sorted slides : forall idx n,
  StronglySorted le (map Image.slide (deck_images idx slides n)).
Proof.
  induction slides as [|slide rest IH]; intros idx n; cbn [deck_images];
    [constructor|].
  rewrite map_app. apply StronglySorted_app_le with (k := idx).
  - apply Forall_map. apply slide_images_slide.
  - apply Forall_map. eapply Forall_impl; [|apply deck_images_bounds].
    cbn beta. intros im H. lia.
  - apply IH.
Qed.

(** Whenever [extract_pptx] returns, it returns one image for every
    picture whose image can be read, and none for the other shapes; the
    images come in the order of the slides. *)
Theorem extract_pptx_images_in_order prs bs ims :
  extract_pptx prs = Returns (bs, ims) ->
  len ims = len (filter is_readable_picture (List.concat prs))
  /\ StronglySorted le (map Image.slide ims).
Proof.
  intros H. apply extract_pptx_returned in H. destruct H as (_ & _ & ->).
  split; [apply deck_images_count|apply deck_images_sorted].
Qed.

Lemma extract_pptx_images_in_order_witness :
  len (deck_images 1 deck_picture 0)
  = len (filter is_readable_picture (List.concat deck_picture))
  /\ StronglySorted le (map Image.slide (deck_images 1 deck_picture 0)).
Proof.
  exact (@extract_pptx_images_in_order deck_picture
           (slide_blocks 1 deck_picture) (deck_images 1 deck_picture 0)
           eq_refl).
Defined.


(* ------------------------------------------------------------------ *)
(** ** More on [extract_docx] *)

Section DocxMore.

Variable ucd : CaseTable.

(** *** The fallback *)

Lemma para_step_blank st para :
  is_blank para = true -> para_step ucd st para = st.
Proof.
  unfold is_blank, para_step. intros H. apply negb_true_iff in H.
  rewrite H. reflexivity.
Qed.

Lemma para_loop_blank paragraphs :
  forallb is_blank paragraphs = true -> para_loop ucd paragraphs = [].
Proof.
  intros H. unfold para_loop.
  assert (E : forall st, fold_left (para_step ucd) paragraphs st = st).
  { induction paragraphs as [|para rest IH]; intros st; [reflexivity|].
    cbn [forallb] in H. apply andb_prop in H. destruct H as (Hp & Hr).
    cbn [fold_left]. rewrite (para_step_blank st para Hp). apply IH, Hr. }
  rewrite E. reflexivity.
Qed.

Lemma para_step_keeps st para :
  sections st <> [] \/ current_text st <> [] ->
  sections (para_step ucd st para) <> []
  \/ current_text (para_step ucd st para) <> [].
Proof.
  intros H. unfold para_step.
  destruct (nonempty (strip (Paragraph.text para))); [|exact H].
  destruct (is_heading ucd _ _); cbn [sections current_text].
  - left. intros E. apply app_eq_nil in E. destruct E as (_ & E).
    discriminate E.
  - right. intros E. apply app_eq_nil in E. destruct E as (_ & E).
    discriminate E.
Qed.

Lemma para_step_starts st para :
  is_blank para = false ->
  sections (para_step ucd st para) <> []
  \/ current_text (para_step ucd st para) <> [].
Proof.
  unfold is_blank, para_step. intros H. apply negb_false_iff in H.
  rewrite H. destruct (is_heading ucd _ _); cbn [sections current_text].
  - left. intros E. apply app_eq_nil in E. destruct E as (_ & E).
    discriminate E.
  - right. intros E. apply app_eq_nil in E. destruct E as (_ & E).
    discriminate E.
Qed.

Lemma para_loop_not_blank paragraphs :
  forallb is_blank paragraphs = false -> para_loop ucd paragraphs <> [].
Proof.
  intros H. unfold para_loop.
  set (st := fold_left (para_step ucd) paragraphs (mkParaState [] [] 1)).
  assert (Q : sections st <> [] \/ current_text st <> []).
  { unfold st. generalize (mkParaState [] [] 1).
    induction paragraphs as [|para rest IH]; intros st0; [discriminate H|].
    cbn [forallb] in H. cbn [fold_left].
    destruct (is_blank para) eqn:Ep.
    - rewrite (para_step_blank st0 para Ep). apply IH. exact H.
    - apply (@fold_left_inv ParaState Paragraph.t (para_step ucd)
               (fun st => sections st <> [] \/ current_text st <> [])).
      + intros a b. apply para_step_keeps.
      + apply para_step_starts, Ep. }
  destruct (current_text st) as [|t ts] eqn:Ec; cbn [nonempty_list].
  - destruct Q as [Q|Q]; [exact Q|contradiction].
  - intros E. apply app_eq_nil in E. destruct E as (_ & E). discriminate E.
Qed.

Lemma document_block_blank paragraphs :
  forallb is_blank paragraphs = true ->
  document_block paragraphs = Block.mk 1 Block.document (lit "Document") [] true.
Proof.
  intros H. unfold document_block.
  assert (E : filter (fun p => nonempty (strip (Paragraph.text p))) paragraphs
              = []).
  { induction paragraphs as [|para rest IH]; [reflexivity|].
    cbn [forallb] in H. apply andb_prop in H. destruct H as (Hp & Hr).
    cbn [filter]. unfold is_blank in Hp. apply negb_true_iff in Hp.
    rewrite Hp. apply IH, Hr. }
  rewrite E. reflexivity.
Qed.

(** [extract_docx] returns the block ["Document"] exactly when every
    paragraph is empty once stripped; the content of that block is then
    the empty text.  In every other case the result holds section and
    heading blocks only. *)
Theorem extract_docx_fallback doc :
  let bs := fst (extract_docx ucd doc) in
  if forallb is_blank (Document.paragraphs doc)
  then bs = [Block.mk 1 Block.document (lit "Document") [] true]
  else Forall (fun b => Block.type b = Block.section
                        \/ Block.type b = Block.heading) bs.
Proof.
  cbn zeta. unfold extract_docx. cbn [fst].
  destruct (forallb is_blank (Document.paragraphs doc)) eqn:H.
  - rewrite (para_loop_blank _ H), (document_block_blank _ H). reflexivity.
  - pose proof (para_loop_not_blank _ H) as Hne.
    destruct (@para_loop_inv ucd
                (fun b => Block.type b = Block.section
                          \/ Block.type b = Block.heading)
                (fun _ _ => or_introl eq_refl)
                (fun _ _ _ => or_intror eq_refl)
                (Document.paragraphs doc)) as (_ & HP).
    destruct (para_loop ucd (Document.paragraphs doc)); [contradiction|].
    exact HP.
Qed.

(** *** The headings *)

Lemma heading_titles_app bs b :
  heading_titles (bs ++ [b])
  = heading_titles bs ++ (if is_heading_block b then [Block.title b] else []).
Proof.
  unfold heading_titles. rewrite filter_app, map_app. cbn [filter].
  destruct (is_heading_block b); reflexivity.
Qed.

Lemma para_step_headings st para :
  heading_titles (sections (para_step ucd st para))
  = heading_titles (sections st)
    ++ (if is_heading_para ucd para then [strip (Paragraph.text para)] else []).
Proof.
  unfold para_step, is_heading_para.
  destruct (nonempty (strip (Paragraph.text para)));
    cbn [andb]; [|rewrite app_nil_r; reflexivity].
  destruct (is_heading ucd _ _); cbn [sections];
    [|rewrite app_nil_r; reflexivity].
  rewrite heading_titles_app. cbn [is_heading_block heading_block Block.type
                                     Block.title].
  f_equal. destruct (nonempty_list (current_text st)); [|reflexivity].
  cbn [sections]. rewrite heading_titles_app. cbn. apply app_nil_r.
Qed.

Lemma para_fold_headings paragraphs : forall st,
  heading_titles (sections (fold_left (para_step ucd) paragraphs st))
  = heading_titles (sections st)
    ++ map (fun p => strip (Paragraph.text p))
           (filter (is_heading_para ucd) paragraphs).
Proof.
  induction paragraphs as [|para rest IH]; intros st; cbn [fold_left filter].
  - cbn [map]. rewrite app_nil_r. reflexivity.
  - rewrite IH, para_step_headings, <- app_assoc.
    destruct (is_heading_para ucd para); reflexivity.
Qed.

Lemma para_loop_headings paragraphs :
  heading_titles (para_loop ucd paragraphs)
  = map (fun p => strip (Paragraph.text p))
        (filter (is_heading_para ucd) paragraphs).
Proof.
  unfold para_loop.
  pose proof (para_fold_headings paragraphs (mkParaState [] [] 1)) as H.
  cbn [sections heading_titles filter map app] in H.
  destruct (nonempty_list (current_text _)); [|exact H].
  rewrite heading_titles_app. cbn. rewrite app_nil_r. exact H.
Qed.

(** The heading blocks of [extract_docx] are, in their order, the
    paragraphs that pass the heading test: one block for each, titled by
    the stripped text of the paragraph. *)
Theorem extract_docx_headings doc :
  heading_titles (fst (extract_docx ucd doc))
  = map (fun p => strip (Paragraph.text p))
        (filter (is_heading_para ucd) (Document.paragraphs doc)).
Proof.
  unfold extract_docx. cbn [fst].
  rewrite <- para_loop_headings.
  destruct (para_loop ucd (Document.paragraphs doc)); reflexivity.
Qed.

(** *** The text of the body *)

Lemma visible_app a b : visible (a ++ b) = visible a ++ visible b.
Proof. apply filter_app. Qed.

Lemma visible_join texts :
  visible (join [NEWLINE] texts) = visible (List.concat texts).
Proof.
  induction texts as [|t rest IH]; [reflexivity|].
  destruct rest as [|u rest].
  - cbn [join List.concat]. rewrite app_nil_r. reflexivity.
  - change (join [NEWLINE] (t :: u :: rest))
      with (t ++ [NEWLINE] ++ join [NEWLINE] (u :: rest)).
    cbn [List.concat] in *. rewrite !visible_app, IH, visible_app.
    reflexivity.
Qed.

Lemma visible_clean_text s : visible (clean_text s) = visible s.
Proof.
  apply clean_text_filter;
    [apply ascii_nonspace_not_space|apply ascii_nonspace_not_high].
Qed.

Lemma visible_strip s : visible (strip s) = visible s.
Proof. apply filter_strip, ascii_nonspace_not_space. Qed.

Lemma held_flush st :
  held (mkParaState
          (sections st ++ [section_block (section_count st) (current_text st)])
          [] (section_count st + 1))
  = held st.
Proof.
  unfold held. cbn [sections current_text List.concat].
  rewrite map_app, concat_app, visible_app. cbn [map List.concat].
  rewrite !app_nil_r. cbn [section_block Block.content].
  rewrite visible_clean_text, visible_join. reflexivity.
Qed.

Lemma held_heading st text :
  held (mkParaState (sections st ++ [heading_block (section_count st) text])
                    (current_text st) (section_count st))
  = held st.
Proof.
  unfold held. cbn [sections current_text].
  rewrite map_app, concat_app, visible_app. cbn. rewrite app_nil_r.
  reflexivity.
Qed.

Lemma para_step_held st para :
  held (para_step ucd st para)
  = held st
    ++ (if is_heading_para ucd para then []
        else visible (Paragraph.text para)).
Proof.
  unfold para_step, is_heading_para.
  destruct (nonempty (strip (Paragraph.text para))) eqn:En; cbn [andb].
  - destruct (is_heading ucd _ _).
    + rewrite app_nil_r.
      destruct (nonempty_list (current_text st)).
      * rewrite (held_heading
                   (mkParaState
                      (sections st ++
                         [section_block (section_count st) (current_text st)])
                      [] (section_count st + 1))).
        apply held_flush.
      * apply held_heading.
    + unfold held. cbn [sections current_text].
      rewrite concat_app, visible_app. cbn [List.concat].
      rewrite app_nil_r, visible_strip, app_assoc. reflexivity.
  - destruct (strip (Paragraph.text para)) eqn:Es; [|discriminate En].
    rewrite <- visible_strip, Es. cbn. rewrite app_nil_r. reflexivity.
Qed.

Lemma para_fold_held paragraphs : forall st,
  held (fold_left (para_step ucd) paragraphs st)
  = held st
    ++ visible (List.concat
                  (map Paragraph.text
                       (filter (fun p => negb (is_heading_para ucd p))
                               paragraphs))).
Proof.
  induction paragraphs as [|para rest IH]; intros st; cbn [fold_left filter].
  - cbn. rewrite app_nil_r. reflexivity.
  - rewrite IH, para_step_held, <- app_assoc.
    destruct (is_heading_para ucd para); cbn [negb map List.concat];
      rewrite ?visible_app; reflexivity.
Qed.

Lemma para_loop_held paragraphs :
  visible (List.concat (map Block.content (para_loop ucd paragraphs)))
  = visible (List.concat
               (map Paragraph.text
                    (filter (fun p => negb (is_heading_para ucd p))
                            paragraphs))).
Proof.
  unfold para_loop.
  pose proof (para_fold_held paragraphs (mkParaState [] [] 1)) as H.
  cbn [held sections current_text map List.concat visible filter app] in H.
  set (st := fold_left (para_step ucd) paragraphs (mkParaState [] [] 1)) in *.
  rewrite <- H.
  destruct (current_text st) as [|t ts] eqn:Ec; cbn [nonempty_list].
  - unfold held. rewrite Ec. cbn. rewrite app_nil_r. reflexivity.
  - rewrite <- (held_flush st). unfold held. cbn [sections current_text].
    rewrite Ec. cbn [List.concat visible filter]. rewrite app_nil_r.
    reflexivity.
Qed.

(** The contents of the blocks of [extract_docx], read one after the
    other, hold the same ASCII characters other than whitespace, in the
    same order, as the texts of the paragraphs that are not headings:
    nothing of the body is lost, repeated or moved, and nothing of a
    heading enters a content. *)
Theorem extract_docx_body_text doc :
  visible (List.concat (map Block.content (fst (extract_docx ucd doc))))
  = visible (List.concat
               (map Paragraph.text
                    (filter (fun p => negb (is_heading_para ucd p))
                            (Document.paragraphs doc)))).
Proof.
  unfold extract_docx. cbn [fst].
  rewrite <- para_loop_held.
  destruct (para_loop ucd (Document.paragraphs doc)) as [|b bs] eqn:E;
    [|reflexivity].
  destruct (forallb is_blank (Document.paragraphs doc)) eqn:H.
  - rewrite (document_block_blank _ H). reflexivity.
  - exfalso. exact (para_loop_not_blank _ H E).
Qed.

(** *** The relationships *)

Lemma rel_loop_raises r1 blob r2 : forall images0,
  rel_loop (r1 ++ Rel.mk None blob :: r2) images0 = rel_loop r1 images0.
Proof.
  induction r1 as [|rel rest IH]; intros images0; cbn [app rel_loop].
  - reflexivity.
  - destruct (Rel.target_ref rel); [apply IH|reflexivity].
Qed.

(** When reading the target of a relationship raises, [extract_docx] keeps
    the images of the relationships before it and reads none of those
    after it; the blocks are not affected.  When the relationships cannot
    be listed there is no image. *)
Theorem extract_docx_rels_interrupted :
  (forall paragraphs r1 blob r2,
     extract_docx ucd
       (Document.mk paragraphs (Some (r1 ++ Rel.mk None blob :: r2)))
     = extract_docx ucd (Document.mk paragraphs (Some r1)))
  /\ (forall paragraphs,
        snd (extract_docx ucd (Document.mk paragraphs None)) = []).
Proof.
  split.
  - intros paragraphs r1 blob r2. unfold extract_docx.
    cbn [Document.paragraphs Document.rels].
    rewrite rel_loop_raises. reflexivity.
  - reflexivity.
Qed.

End DocxMore.


(* ------------------------------------------------------------------ *)
(** ** [allowed_file] *)

Lemma contains_char s c : contains s [c] = existsb (fun x => (x =? c)%N) s.
Proof.
  induction s as [|x r IH]; [reflexivity|].
  cbn [contains existsb]. rewrite IH. f_equal.
  cbn [startswith]. destruct r; apply andb_true_r.
Qed.

Lemma existsb_char s c : existsb (fun x => (x =? c)%N) s = true <-> In c s.
Proof.
  rewrite existsb_exists. split.
  - intros (x & Hx & E). apply N.eqb_eq in E. subst. exact Hx.
  - intros H. exists c. split; [exact H|apply N.eqb_refl].
Qed.

Lemma rsplit1_no_sep sep s : ~ In sep s -> rsplit1 sep s = [s].
Proof.
  induction s as [|c r IH]; intros H; [reflexivity|].
  cbn [rsplit1]. rewrite IH by (intros Hin; apply H; right; exact Hin).
  destruct (N.eqb_spec c sep) as [->|_]; [|reflexivity].
  exfalso. apply H. left. reflexivity.
Qed.

Lemma rsplit1_last sep name ext :
  ~ In sep ext -> rsplit1 sep (name ++ sep :: ext) = [name; ext].
Proof.
  intros H. induction name as [|c r IH]; cbn [app rsplit1].
  - rewrite (@rsplit1_no_sep sep ext H), N.eqb_refl. reflexivity.
  - rewrite IH. reflexivity.
Qed.

Lemma lower_from_ascii uni_lower s rest : forall i,
  Forall (fun c => (c < 128)%N) rest ->
  lower_from uni_lower s i rest = map ascii_lower rest.
Proof.
  induction rest as [|c r IH]; intros i H; [reflexivity|].
  inversion H as [|? ? Hc Hr]; subst. cbn [lower_from map].
  apply N.ltb_lt in Hc. rewrite Hc, (IH _ Hr). reflexivity.
Qed.

Section Allowed.

Variable uni_lower : str -> nat -> str.

(** [allowed_file] looks at what follows the last dot only: a name
    without a dot is refused, and a name that ends with a dot and a text
    without dots is accepted exactly when that text, in lower case, is
    one of ["pdf"], ["pptx"], ["docx"], whatever stands before. *)
Theorem allowed_file_last_dot :
  (forall filename, ~ In DOT filename -> allowed_file uni_lower filename = false)
  /\ (forall name ext,
        ~ In DOT ext ->
        allowed_file uni_lower (name ++ DOT :: ext)
        = in_set (lower uni_lower ext) ALLOWED_EXTENSIONS).
Proof.
  split.
  - intros filename H. unfold allowed_file.
    change (lit ".") with [DOT]. rewrite contains_char.
    destruct (existsb (fun x => (x =? DOT)%N) filename) eqn:E; [|reflexivity].
    apply existsb_char in E. contradiction.
  - intros name ext H. unfold allowed_file.
    change (lit ".") with [DOT]. rewrite contains_char.
    assert (E : existsb (fun x => (x =? DOT)%N) (name ++ DOT :: ext) = true).
    { apply existsb_char, in_or_app. right. left. reflexivity. }
    rewrite E, (@rsplit1_last DOT name ext H). reflexivity.
Qed.

(** For an extension of ASCII characters the test does not depend on the
    case: the name is accepted exactly when the extension with its
    capital letters turned into small ones is ["pdf"], ["pptx"] or
    ["docx"]. *)
Theorem allowed_file_ascii_case :
  forall name ext,
    ~ In DOT ext ->
    Forall (fun c => (c < 128)%N) ext ->
    allowed_file uni_lower (name ++ DOT :: ext)
    = in_set (map ascii_lower ext) ALLOWED_EXTENSIONS.
Proof.
  intros name ext Hdot Hascii. unfold allowed_file.
  change (lit ".") with [DOT]. rewrite contains_char.
  assert (E : existsb (fun x => (x =? DOT)%N) (name ++ DOT :: ext) = true).
  { apply existsb_char, in_or_app. right. left. reflexivity. }
  rewrite E, (@rsplit1_last DOT name ext Hdot). cbn [nth_error andb].
  unfold lower. rewrite (@lower_from_ascii uni_lower ext ext 0 Hascii).
  reflexivity.
Qed.

End Allowed.

(** ["report.final.PdF"] is accepted, ["report.pdf.exe"] and ["pdf"] are
    not. *)
Lemma allowed_file_last_dot_witness :
  allowed_file no_lower (lit "pdf") = false
  /\ allowed_file no_lower (lit "report.pdf" ++ DOT :: lit "exe")
     = in_set (lower no_lower (lit "exe")) ALLOWED_EXTENSIONS.
Proof.
  split.
  - apply (proj1 (allowed_file_last_dot no_lower)).
    vm_compute. intros [H|[H|[H|[]]]]; discriminate H.
  - apply (proj2 (allowed_file_last_dot no_lower)).
    vm_compute. intros [H|[H|[H|[]]]]; discriminate H.
Defined.

Lemma allowed_file_ascii_case_witness :
  allowed_file no_lower (lit "report.final" ++ DOT :: lit "PdF")
  = in_set (map ascii_lower (lit "PdF")) ALLOWED_EXTENSIONS.
Proof.
  apply allowed_file_ascii_case.
  - vm_compute. intros [H|[H|[H|[]]]]; discriminate H.
  - repeat constructor; apply N.ltb_lt; reflexivity.
Defined.

(* ------------------------------------------------------------------ *)
(** ** The flat text *)

Lemma join_nonempty sep p ps : p <> [] -> join sep (p :: ps) <> [].
Proof.
  intros H. destruct ps; cbn [join]; [exact H|].
  intros E. apply app_eq_nil in E. destruct E as (E & _). contradiction.
Qed.

(** The flat text is empty exactly when no block is flagged: every
    flagged block puts at least its ["## "] mark in it. *)
Theorem flatten_empty_iff slides_data :
  flatten slides_data = []
  <-> forallb (fun s => negb (Block.has_content s)) slides_data = true.
Proof.
  unfold flatten. split.
  - intros H. apply forallb_forall. intros s Hs.
    destruct (Block.has_content s) eqn:E; [|reflexivity]. exfalso.
    assert (Hin : In s (filter Block.has_content slides_data))
      by (apply filter_In; split; assumption).
    destruct (filter Block.has_content slides_data) as [|a l];
      [destruct Hin|].
    cbn [map] in H. revert H. apply join_nonempty. discriminate.
  - intros H.
    assert (E : filter Block.has_content slides_data = []).
    { induction slides_data as [|s rest IH]; [reflexivity|].
      cbn [forallb] in H. apply andb_prop in H. destruct H as (Hs & Hr).
      cbn [filter]. apply negb_true_iff in Hs. rewrite Hs. apply IH, Hr. }
    rewrite E. reflexivity.
Qed.

(** The flat text of a result of [extract_docx] leaves the headings out
    and holds every other block, however short its content: one entry
    ["## title\ncontent"] for each, in the order of the blocks, with an
    empty line between two entries. *)
Theorem flatten_docx ucd doc :
  flatten (fst (extract_docx ucd doc))
  = join [NEWLINE; NEWLINE]
      (map flat_entry
           (filter (fun b => negb (is_heading_block b))
                   (fst (extract_docx ucd doc)))).
Proof.
  unfold flatten. do 2 f_equal.
  pose proof (docx_flag_rule_blocks ucd doc) as F.
  induction F as [|b bs Hb _ IH]; [reflexivity|].
  cbn [filter]. rewrite IH.
  unfold docx_flag_rule in Hb. unfold is_heading_block.
  destruct (Block.type b); try contradiction.
  - rewrite Hb. reflexivity.
  - destruct Hb as (Hb & _). rewrite Hb. reflexivity.
  - rewrite Hb. reflexivity.
Qed.


(* ------------------------------------------------------------------ *)
(** ** [process_file] *)

Lemma str_eqb_eq a b : str_eqb a b = true <-> a = b.
Proof.
  unfold str_eqb. destruct (list_eq_dec N.eq_dec a b); split; auto.
  discriminate.
Qed.

Section RouteFacts.

Variable ucd : CaseTable.
Variable uni_lower : str -> nat -> str.
Variable secure_filename : str -> str.

Lemma respond_facts req result file_type :
  Response.status (respond req result file_type) = 200
  /\ Response.file_left (respond req result file_type)
     = negb (Request.remove req)
  /\ Response.body (respond req result file_type)
     = Response.success (fst result) (flatten (fst result)) (snd result)
                        file_type (len (fst result)).
Proof. destruct result as [slides_data images]. repeat split. Qed.

(** The route answers 400 and has saved nothing exactly when the request
    has no part ['file'], or the name of the file is empty, or
    [allowed_file] refuses the name. *)
Theorem process_file_rejects req :
  (Response.status (process_file ucd uni_lower secure_filename req) = 400 /\ Response.file_left (process_file ucd uni_lower secure_filename req) = false)
  <-> match Request.file req with
      | None => True
      | Some name => name = [] \/ allowed_file uni_lower name = false
      end.
Proof.
  unfold process_file.
  destruct (Request.file req) as [name|]; [|cbn; tauto].
  destruct (str_eqb name []) eqn:En.
  { apply str_eqb_eq in En. cbn. tauto. }
  assert (Hn : name <> []).
  { intros E. apply str_eqb_eq in E. congruence. }
  destruct (allowed_file uni_lower name) eqn:Ea; cbn [negb].
  2:{ cbn. tauto. }
  split; [|intros [H|H]; [contradiction|discriminate H]].
  intros (Hs & Hl). exfalso.
  destruct (Request.save req) as [u|m]; [|discriminate Hs].
  destruct (nth_error (rsplit1 DOT (secure_filename name)) 1) as [part|];
    [|discriminate Hs].
  destruct (str_eqb (lower uni_lower part) (lit "pdf")).
  { destruct (Request.pdf req) as [f|m]; [|discriminate Hs].
    rewrite (proj1 (respond_facts _ _ _)) in Hs. discriminate Hs. }
  destruct (str_eqb (lower uni_lower part) (lit "pptx")).
  { destruct (Request.pptx req) as [prs|m]; [|discriminate Hs].
    destruct (extract_pptx prs) as [result|m]; [|discriminate Hs].
    rewrite (proj1 (respond_facts _ _ _)) in Hs. discriminate Hs. }
  destruct (str_eqb (lower uni_lower part) (lit "docx")).
  { destruct (Request.docx req) as [doc|m]; [|discriminate Hs].
    rewrite (proj1 (respond_facts _ _ _)) in Hs. discriminate Hs. }
  discriminate Hl.
Qed.

(** A success answer has status 200, counts the blocks it carries, holds
    their flat text, and comes from one extractor run on the saved file:
    [extract_pdf] with the file type ["pdf"], [extract_pptx] with
    ["slides"] or [extract_docx] with ["document"].  The status is 200 for
    success answers only. *)
Theorem process_file_success req :
  (forall slides text images file_type n,
     Response.body (process_file ucd uni_lower secure_filename req)
     = Response.success slides text images file_type n ->
     Response.status (process_file ucd uni_lower secure_filename req) = 200
     /\ n = len slides
     /\ text = flatten slides
     /\ ((file_type = lit "pdf"
          /\ exists f,
               Request.pdf req = Returns f /\ extract_pdf f = (slides, images))
         \/ (file_type = lit "slides"
             /\ exists prs,
                  Request.pptx req = Returns prs
                  /\ extract_pptx prs = Returns (slides, images))
         \/ (file_type = lit "document"
             /\ exists doc,
                  Request.docx req = Returns doc
                  /\ extract_docx ucd doc = (slides, images))))
  /\ (Response.status (process_file ucd uni_lower secure_filename req) = 200
      <-> is_success (Response.body (process_file ucd uni_lower secure_filename req)) = true).
Proof.
  unfold process_file.
  destruct (Request.file req) as [name|];
    [|split; [discriminate|cbn; split; discriminate]].
  destruct (str_eqb name []);
    [split; [discriminate|cbn; split; discriminate]|].
  destruct (negb (allowed_file uni_lower name));
    [split; [discriminate|cbn; split; discriminate]|].
  destruct (Request.save req) as [u|m];
    [|split; [discriminate|cbn; split; discriminate]].
  destruct (nth_error (rsplit1 DOT (secure_filename name)) 1) as [part|];
    [|split; [discriminate|cbn; split; discriminate]].
  destruct (str_eqb (lower uni_lower part) (lit "pdf")).
  { destruct (Request.pdf req) as [f|m];
      [|split; [discriminate|cbn; split; discriminate]].
    destruct (extract_pdf f) as [sd ims] eqn:E. cbn. split; [|tauto].
    intros slides text images file_type n H.
    injection H as <- <- <- <- <-. repeat split. left. split; [reflexivity|].
    exists f. split; [reflexivity|exact E]. }
  destruct (str_eqb (lower uni_lower part) (lit "pptx")).
  { destruct (Request.pptx req) as [prs|m];
      [|split; [discriminate|cbn; split; discriminate]].
    destruct (extract_pptx prs) as [[sd ims]|m] eqn:E;
      [|split; [discriminate|cbn; split; discriminate]].
    cbn. split; [|tauto].
    intros slides text images file_type n H.
    injection H as <- <- <- <- <-. repeat split. right. left.
    split; [reflexivity|]. exists prs. split; [reflexivity|exact E]. }
  destruct (str_eqb (lower uni_lower part) (lit "docx")).
  { destruct (Request.docx req) as [doc|m];
      [|split; [discriminate|cbn; split; discriminate]].
    destruct (extract_docx ucd doc) as [sd ims] eqn:E. cbn. split; [|tauto].
    intros slides text images file_type n H.
    injection H as <- <- <- <- <-. repeat split. right. right.
    split; [reflexivity|]. exists doc. split; [reflexivity|exact E]. }
  split; [discriminate|cbn; split; discriminate].
Qed.

(** Once the upload is saved, the route removes it only on its way to a
    success answer: after an answer of failure (an extractor that raises,
    a secure name without extension, an extension that is not supported)
    the file is still in the upload folder; after a success answer it is
    there only when [os.remove] failed. *)
Theorem process_file_leaves_file req name u :
  Request.file req = Some name ->
  name <> [] ->
  allowed_file uni_lower name = true ->
  Request.save req = Returns u ->
  Response.file_left (process_file ucd uni_lower secure_filename req)
  = if is_success (Response.body (process_file ucd uni_lower secure_filename req))
    then negb (Request.remove req)
    else true.
Proof.
  intros Hf Hn Ha Hs. unfold process_file. rewrite Hf.
  destruct (str_eqb name []) eqn:En; [apply str_eqb_eq in En; contradiction|].
  rewrite Ha, Hs. cbn [negb].
  destruct (nth_error (rsplit1 DOT (secure_filename name)) 1) as [part|];
    [|reflexivity].
  destruct (str_eqb (lower uni_lower part) (lit "pdf")).
  { destruct (Request.pdf req) as [f|m]; [|reflexivity].
    destruct (extract_pdf f); reflexivity. }
  destruct (str_eqb (lower uni_lower part) (lit "pptx")).
  { destruct (Request.pptx req) as [prs|m]; [|reflexivity].
    destruct (extract_pptx prs) as [[sd ims]|m]; reflexivity. }
  destruct (str_eqb (lower uni_lower part) (lit "docx")).
  { destruct (Request.docx req) as [doc|m]; [|reflexivity].
    destruct (extract_docx ucd doc); reflexivity. }
  reflexivity.
Qed.

(** When the name that [secure_filename] returns holds no dot, the index
    into the result of [rsplit] raises: the route answers 500 with the
    message of the [IndexError], although [allowed_file] accepted the
    upload, and the saved file stays. *)
Theorem process_file_name_without_dot req name u :
  Request.file req = Some name ->
  name <> [] ->
  allowed_file uni_lower name = true ->
  Request.save req = Returns u ->
  ~ In DOT (secure_filename name) ->
  process_file ucd uni_lower secure_filename req
  = Response.mk (Response.error (lit "list index out of range")) 500 true.
Proof.
  intros Hf Hn Ha Hs Hdot. unfold process_file. rewrite Hf.
  destruct (str_eqb name []) eqn:En; [apply str_eqb_eq in En; contradiction|].
  rewrite Ha, Hs. cbn [negb].
  rewrite (@rsplit1_no_sep DOT (secure_filename name) Hdot). reflexivity.
Qed.

End RouteFacts.

(** The slides ["talk.PPTX"]. *)
Lemma process_file_success_witness :
  Response.status (process_file no_case no_lower (fun s => s) pptx_request)
  = 200
  /\ 2 = len (slide_blocks 1 deck_hello_twice)
  /\ ([] : str) = flatten (slide_blocks 1 deck_hello_twice).
Proof.
  destruct (proj1 (process_file_success no_case no_lower (fun s => s)
                     pptx_request)
              (slide_blocks 1 deck_hello_twice) [] [] (lit "slides") 2
              eq_refl)
    as (H1 & H2 & H3 & _).
  exact (conj H1 (conj H2 H3)).
Defined.

(** An upload that cannot be opened stays in the upload folder. *)
Lemma process_file_leaves_file_witness :
  Response.file_left
    (process_file no_case no_lower (fun s => s) broken_pptx_request)
  = true.
Proof.
  refine (@process_file_leaves_file no_case no_lower (fun s => s)
            broken_pptx_request (lit "talk.pptx") tt eq_refl _ eq_refl eq_refl).
  discriminate.
Defined.

(** The upload [".pdf"], whose secure name is ["pdf"]. *)
Lemma process_file_name_without_dot_witness :
  process_file no_case no_lower strip_dots dot_pdf_request
  = Response.mk (Response.error (lit "list index out of range")) 500 true.
Proof.
  refine (@process_file_name_without_dot no_case no_lower strip_dots
            dot_pdf_request (lit ".pdf") tt eq_refl _ eq_refl eq_refl _).
  - discriminate.
  - vm_compute. intros [H|[H|[H|[]]]]; discriminate H.
Defined.


(* ------------------------------------------------------------------ *)
(** ** The contents of the blocks *)

Lemma clean_text_trimmed_ascii s : trimmed_ascii (clean_text s).
Proof.
  destruct s as [|c r]; [split; [constructor|reflexivity]|].
  unfold clean_text, re_sub_plus. split.
  - apply Forall_strip, Forall_sub_runs.
    + unfold SPACE. lia.
    + apply Forall_forall. intros x _ Hx. unfold non_ascii in Hx.
      apply N.ltb_ge in Hx. exact Hx.
  - apply strip_idem.
Qed.

Lemma split_Forall (P : char -> Prop) sep s :
  Forall P s -> Forall (Forall P) (split sep s).
Proof.
  induction 1 as [|c r Hc Hr IH]; cbn [split]; [repeat constructor|].
  destruct (c =? sep)%N; [constructor; [constructor|exact IH]|].
  destruct (split sep r) as [|p ps]; [repeat constructor; exact Hc|].
  inversion IH; subst. constructor; [constructor|]; assumption.
Qed.

Lemma join_Forall (P : char -> Prop) sep parts :
  Forall P sep -> Forall (Forall P) parts -> Forall P (join sep parts).
Proof.
  intros Hsep. induction 1 as [|p ps Hp Hps IH]; [constructor|].
  destruct ps as [|q ps]; [exact Hp|].
  change (Forall P (p ++ sep ++ join sep (q :: ps))).
  apply Forall_app. split; [exact Hp|].
  apply Forall_app. split; [exact Hsep|exact IH].
Qed.

Lemma infer_title_content st : trimmed_ascii (snd (infer_title st)).
Proof.
  unfold infer_title.
  set (content := clean_text (join [NEWLINE] (slide_text st))).
  pose proof (clean_text_trimmed_ascii (join [NEWLINE] (slide_text st))) as H.
  fold content in H.
  destruct (split DOT content) as [|first others] eqn:E; [exact H|].
  destruct ((len first <? 80) && negb (has_title st)); [|exact H].
  cbn [snd]. split; [|apply strip_idem].
  apply Forall_strip, join_Forall.
  - repeat constructor. unfold DOT. lia.
  - pose proof (split_Forall DOT (proj1 H)) as F. rewrite E in F.
    inversion F; assumption.
Qed.

(** In what the three extractors return the content of every block
    holds characters of the range 0x00-0x7F only and neither starts nor
    ends with whitespace ([strip] leaves it as it is). *)
Theorem contents_trimmed_ascii :
  (forall f, Forall (fun b => trimmed_ascii (Block.content b))
                    (fst (extract_pdf f)))
  /\ (forall prs bs ims,
        extract_pptx prs = Returns (bs, ims) ->
        Forall (fun b => trimmed_ascii (Block.content b)) bs)
  /\ (forall ucd doc, Forall (fun b => trimmed_ascii (Block.content b))
                             (fst (extract_docx ucd doc))).
Proof.
  split; [|split].
  - intros [[pages|] plumber raw]; unfold extract_pdf; cbn [PdfFile.fitz].
    + rewrite pdf_page_loop_spec. cbn [fst app].
      eapply Forall_impl; [|apply pdf_blocks_pages]. cbn beta.
      intros b (t & _ & _ & _ & ->). apply clean_text_trimmed_ascii.
    + cbn [PdfFile.pdfplumber PdfFile.raw].
      assert (H : forall pages i tc,
                 Forall (fun b => trimmed_ascii (Block.content b)) tc ->
                 Forall (fun b => trimmed_ascii (Block.content b))
                        (fst (plumber_loop i pages tc))).
      { induction pages as [|[extracted|] rest IH]; intros i tc H;
          cbn [plumber_loop fst]; try exact H.
        apply IH.
        destruct (clean_text match extracted with Some t => t | None => [] end)
          eqn:E; [exact H|].
        apply Forall_app. split; [exact H|]. constructor; [|constructor].
        cbn [page_block Block.content]. rewrite <- E.
        apply clean_text_trimmed_ascii. }
      assert (H' : Forall (fun b => trimmed_ascii (Block.content b))
                          (fst (match plumber with
                                | Some pages => plumber_loop 0 pages []
                                | None => ([], false)
                                end))).
      { destruct plumber as [pages|]; [apply H|]; constructor. }
      destruct (match plumber with Some _ => _ | None => _ end) as [tc done].
      cbn [fst] in *. destruct done; [exact H'|].
      apply Forall_app. split; [exact H'|]. constructor; [|constructor].
      apply clean_text_trimmed_ascii.
  - intros prs bs ims H.
    apply extract_pptx_returned in H. destruct H as (_ & -> & _).
    apply slide_blocks_Forall. intros idx slide.
    unfold slide_block. cbn [Block.content]. apply infer_title_content.
  - intros ucd doc. apply extract_docx_inv.
    + intros n texts. apply clean_text_trimmed_ascii.
    + intros n text _. split; [constructor|reflexivity].
    + intros paragraphs. apply clean_text_trimmed_ascii.
Qed.

(** The two slides of the sample deck. *)
Lemma contents_trimmed_ascii_witness :
  Forall (fun b => trimmed_ascii (Block.content b))
         (slide_blocks 1 deck_hello_twice).
Proof.
  exact (proj1 (proj2 contents_trimmed_ascii) deck_hello_twice
           (slide_blocks 1 deck_hello_twice) [] eq_refl).
Defined.

(** On a text without characters above 0x7F, cleaning twice gives what
    cleaning once gives. *)
Theorem clean_text_idempotent_on_ascii s :
  Forall (fun c => (c <= 127)%N) s ->
  clean_text (clean_text s) = clean_text s.
Proof. apply clean_text_idempotent_ascii. Qed.

Lemma clean_text_idempotent_on_ascii_witness :
  clean_text (clean_text (lit "  a   b  ")) = clean_text (lit "  a   b  ").
Proof.
  apply clean_text_idempotent_on_ascii.
  repeat constructor; apply N.leb_le; reflexivity.
Defined.

(** For every text, cleaning a third time changes nothing: the result of
    [clean_text] holds no character above 0x7F. *)
Theorem clean_text_stable_after_two s :
  clean_text (clean_text (clean_text s)) = clean_text (clean_text s).
Proof. apply clean_text_thrice. Qed.
